(** * News monitor: keyword-filtered, de-duplicated polling

    A shallow embedding of [stock_news_monitor.py] (module [Monitor]) and of
    [backtest.py] (module [Backtest]), followed by the properties of the
    poll cycle.  The text that the two files share word for word (the query
    builder and the keyword matcher) lives in module [Shared]. *)

From Stdlib Require Import Ascii.
From Stdlib Require String.
From Stdlib Require QArith.
From stdpp Require Import base decidable countable list gmap strings pretty.

Local Open Scope stdpp_scope.
Set Warnings "-clear-no-such-hyp".

(** ** Python values and built-ins *)

Module Py.

(** A [str] is a sequence of characters; [string] plays that role, one
    [ascii] per character.  [len], slicing and [in] are defined on it
    below.  Case conversion, [repr] and the printing of floats are
    interpreter routines, taken as an interface. *)
Class Builtins := {
  lower : string → string;                 (* str.lower *)
  upper : string → string;                 (* str.upper *)
  repr  : string → string;                 (* repr of a str *)
  format_float : QArith_base.Q → string    (* str of a float *)
}.

(** Values of the nullable text fields of a JSON article. *)
Inductive value :=
| None_
| Str (s : string).

(** [f"{v}"] and [str(v)]. *)
Definition format (v : value) : string :=
  match v with
  | None_ => "None"
  | Str s => s
  end.

(** Truth value in an [if]. *)
Definition truthy (v : value) : bool :=
  match v with
  | None_ => false
  | Str s => negb (String.eqb s "")
  end.

(** The double-quote character. *)
Definition dquote : string := String (ascii_of_nat 34) "".

(** [chr(n)] as a one-character string, for the letters outside ASCII. *)
Definition chr (n : nat) : string := String (ascii_of_nat n) "".

(** [s] starts with [p]. *)
Fixpoint prefix (p s : string) : bool :=
  match p, s with
  | "", _ => true
  | String a p', String b s' => Ascii.eqb a b && prefix p' s'
  | String _ _, "" => false
  end.

(** [needle in hay] on strings: [needle] starts at some position of
    [hay]. *)
Fixpoint str_in (needle hay : string) : bool :=
  if prefix needle hay then true
  else match hay with
       | "" => false
       | String _ rest => str_in needle rest
       end.

(** [s[:n]]. *)
Fixpoint take (n : nat) (s : string) : string :=
  match n, s with
  | S n', String c rest => String c (take n' rest)
  | _, _ => ""
  end.

#[global] Arguments take : simpl never.

(** ['=' * n]. *)
Fixpoint repeat_str (s : string) (n : nat) : string :=
  match n with
  | O => ""
  | S n' => s +:+ repeat_str s n'
  end.

(** [sep.join(l)]. *)
Definition join (sep : string) (l : list string) : string :=
  String.concat sep l.

(** [str(l)] for a list of [str]: the [repr] of each element between
    brackets. *)
Definition format_list `{Builtins} (l : list string) : string :=
  "[" +:+ join ", " (map repr l) +:+ "]".

(** A [dict] from [str] to [str]; Python keeps insertion order, which
    [keys()] exposes. *)
Definition dict := list (string * string).

Fixpoint dict_get (d : dict) (k : string) : option string :=
  match d with
  | [] => None
  | (k', v) :: rest => if String.eqb k' k then Some v else dict_get rest k
  end.

(** [d.get(k, dflt)]. *)
Definition get (d : dict) (k dflt : string) : string :=
  default dflt (dict_get d k).

(** [d[k] = v]: overwrite in place, or append a new key. *)
Fixpoint dict_set (d : dict) (k v : string) : dict :=
  match d with
  | [] => [(k, v)]
  | (k', v') :: rest =>
      if String.eqb k' k then (k', v) :: rest
      else (k', v') :: dict_set rest k v
  end.

(** A dict display or comprehension: the pairs are stored left to right. *)
Definition dict_of (items : list (string * string)) : dict :=
  fold_left (fun d kv => dict_set d kv.1 kv.2) items [].

Definition keys (d : dict) : list string := map fst d.

(** Exceptions derived from [Exception]: the class name and [str(e)]. *)
Record exn := Exn { exn_class : string; exn_text : string }.

(** [article['url']] on a dict without that key. *)
Definition KeyError (key : string) : exn :=
  Exn "KeyError" ("'" +:+ key +:+ "'").

(** A call of a dataclass constructor with a keyword it does not
    declare (the wording of Python 3.10 and later). *)
Definition unexpected_keyword (cls kw : string) : exn :=
  Exn "TypeError"
      (cls +:+ ".__init__() got an unexpected keyword argument '" +:+ kw +:+ "'").

(** Attribute read on an object that has no such attribute. *)
Definition AttributeError (cls attr : string) : exn :=
  Exn "AttributeError"
      ("'" +:+ cls +:+ "' object has no attribute '" +:+ attr +:+ "'").

End Py.

Import Py.

(** ** Code shared by both files *)

Module Shared.
Section WithBuiltins.
Context `{Builtins}.

(** [f'"{x}"'] *)
Definition quoted (x : string) : string := dquote +:+ x +:+ dquote.

(** [NewsMonitor._build_search_query], with [self.ticker_to_company]
    and [self.config.price_moving_keywords] as arguments. *)
Definition _build_search_query
    (ticker_to_company : dict) (price_moving_keywords : list string)
    (ticker : string) : string :=
  let company_name := get ticker_to_company ticker ticker in
  let base_query := quoted ticker +:+ " OR " +:+ quoted company_name in
  let keyword_query := join " OR " (map quoted price_moving_keywords) in
  "(" +:+ base_query +:+ ") AND (" +:+ keyword_query +:+ ")".

(** [NewsMonitor._extract_matched_keywords]: the loop appends to
    [matched], here the accumulator. *)
Fixpoint extract_loop (text_lower : string) (keywords matched : list string)
    : list string :=
  match keywords with
  | [] => matched
  | keyword :: rest =>
      if str_in (lower keyword) text_lower
      then extract_loop text_lower rest (matched ++ [keyword])
      else extract_loop text_lower rest matched
  end.

Definition _extract_matched_keywords
    (price_moving_keywords : list string) (article_text : string)
    : list string :=
  let text_lower := lower article_text in
  extract_loop text_lower price_moving_keywords [].

End WithBuiltins.
End Shared.

(** ** The collaborators: news API, clock, logging *)

Module Env.

(** A raw article of the API answer: a JSON object read through
    [article['url']] and [article.get(key, default)].  [None] is a
    missing key; the text fields may hold JSON [null]; [url], when
    present, is a string, and [source], when present, an object. *)
Record source_object := SourceObject { src_name : option value }.

Record raw_article := RawArticle {
  raw_title : option value;
  raw_url : option string;
  raw_publishedAt : option value;
  raw_description : option value;
  raw_source : option source_object
}.

(** The answer of [get_everything]: a dict read through
    [articles.get('articles', [])]. *)
Record response := Response { resp_articles : option (list raw_article) }.

Inductive api_result :=
| Raise (e : exn)
| Return (r : response).

(** One process run seen from outside: what the API answers to the call
    made in cycle [c] for the ticker at position [i] with query [q] (the
    language, sort order, page size and date window of the call are fixed
    by the code and the clock), and what the clock shows when the [j]-th
    article of that call is written. *)
Record world := World {
  api : nat → nat → string → api_result;
  now : nat → nat → nat → string
}.

(** [logging] records; [basicConfig(level=logging.INFO)] drops what is
    below [INFO]. *)
Inductive level := DEBUG | INFO | ERROR.

#[export] Instance level_eq_dec : EqDecision level.
Proof. solve_decision. Defined.

Definition enabled (l : level) : bool :=
  match l with
  | DEBUG => false
  | INFO | ERROR => true
  end.

Definition record : Type := level * string.

Definition emit (l : level) (msg : string) (log : list record) : list record :=
  if enabled l then log ++ [(l, msg)] else log.

(** The pictographs that open some messages, as their UTF-8 bytes. *)
Definition icon (b0 b1 b2 b3 : nat) : string :=
  String (ascii_of_nat b0) (String (ascii_of_nat b1)
    (String (ascii_of_nat b2) (String (ascii_of_nat b3) ""))).
Definition icon_chart : string := icon 240 159 147 136.      (* U+1F4C8 *)
Definition icon_robot : string := icon 240 159 164 150.      (* U+1F916 *)
Definition icon_search : string := icon 240 159 148 141.     (* U+1F50D *)
Definition icon_rocket : string := icon 240 159 154 128.     (* U+1F680 *)
Definition icon_wave : string := icon 240 159 145 139.       (* U+1F44B *)

Definition newline : string := String (ascii_of_nat 10) "".

(** The payload of the analysis: a dict of strings and floats. *)
Inductive ai_value :=
| AStr (s : string)
| AFloat (q : QArith_base.Q).

Definition ai_dict := list (string * ai_value).

Fixpoint ai_get (d : ai_dict) (k : string) : option ai_value :=
  match d with
  | [] => None
  | (k', v) :: rest => if String.eqb k' k then Some v else ai_get rest k
  end.

(** [f"{'='*80}"] *)
Definition rule : string := repeat_str "=" 80.

End Env.

Import Env.

(** ** stock_news_monitor.py *)

Module Monitor.

(** [@dataclass NewsArticle] *)
Record NewsArticle := mkNewsArticle {
  title : value;
  url : string;
  published_at : value;
  description : value;
  matched_keywords : list string;
  ticker : value
}.

(** [@dataclass MonitorConfig] *)
Record MonitorConfig := mkMonitorConfig {
  api_key : string;
  refresh_interval : Z;
  price_moving_keywords : list string
}.

(** The parts of a [NewsMonitor] object that are set once by [__init__]:
    [self.config], the [tickers] attribute it puts on the config, and
    [self.ticker_to_company]. *)
Record NewsMonitor := mkNewsMonitor {
  config : MonitorConfig;
  tickers : list string;
  ticker_to_company : dict
}.

(** The parts that change: [self.processed_articles] and the records
    handed to [soy_logger]. *)
Record state := mkState {
  processed_articles : gset string;
  log : list record
}.

Definition logger (l : level) (msg : string) (st : state) : state :=
  mkState (processed_articles st) (emit l msg (log st)).

Definition _build_ticker_mapping : dict :=
  dict_of [("Brasil", "comercio de soja")].

(** [NewsMonitor.__init__] *)
Definition __init__ (config : MonitorConfig) : NewsMonitor * state :=
  let ticker_to_company := _build_ticker_mapping in
  (mkNewsMonitor config (keys ticker_to_company) ticker_to_company,
   mkState ∅ []).

(** An analysis service: it may log, and it returns a payload or raises. *)
Definition analyzer := string → state → state * (exn + ai_dict).

Section WithBuiltins.
Context `{Builtins}.

Definition format_ai (v : ai_value) : string :=
  match v with
  | AStr s => s
  | AFloat q => format_float q
  end.

Section WithMonitor.
Variable self : NewsMonitor.

Definition keywords : list string := price_moving_keywords (config self).

(** The text matched against the keywords:
    [f"{article.get('title', '')} {article.get('description', '')}"]. *)
Definition article_text (article : raw_article) : string :=
  format (default (Str "") (raw_title article)) +:+ " " +:+
  format (default (Str "") (raw_description article)).

(** The [NewsArticle(...)] call in the loop. *)
Definition new_article (tk : string) (u : string) (article : raw_article)
    : NewsArticle :=
  mkNewsArticle
    (default (Str "No title") (raw_title article))
    u
    (default (Str "") (raw_publishedAt article))
    (default (Str "") (raw_description article))
    []
    (Str tk).

Definition set_matched_keywords (a : NewsArticle) (ks : list string)
    : NewsArticle :=
  mkNewsArticle (title a) (url a) (published_at a) (description a) ks (ticker a).

(** The [for article in ...] loop of [fetch_news_for_ticker]; the
    result is the exception that leaves the loop, or [news_articles]. *)
Fixpoint fetch_loop (tk : string) (articles : list raw_article)
    (st : state) (news_articles : list NewsArticle)
    : state * (exn + list NewsArticle) :=
  match articles with
  | [] => (st, inr news_articles)
  | article :: rest =>
      match raw_url article with
      | None => (st, inl (KeyError "url"))
      | Some u =>
          if bool_decide (u ∈ processed_articles st)
          then fetch_loop tk rest st news_articles
          else
            let news_article := new_article tk u article in
            let matched :=
              Shared._extract_matched_keywords keywords (article_text article) in
            let st := logger INFO ("Article: " +:+ format (title news_article)) st in
            let st := logger INFO ("Matched keywords: " +:+ format_list matched) st in
            let news_article := set_matched_keywords news_article matched in
            match matched with
            | [] => fetch_loop tk rest st news_articles
            | _ :: _ =>
                fetch_loop tk rest
                  (mkState ({[u]} ∪ processed_articles st) (log st))
                  (news_articles ++ [news_article])
            end
      end
  end.

(** The body of the [try] in [fetch_news_for_ticker]. *)
Definition fetch_body (w : world) (c i : nat) (tk : string) (st : state)
    : state * (exn + list NewsArticle) :=
  let query :=
    Shared._build_search_query (ticker_to_company self) keywords tk in
  let st :=
    logger DEBUG ("Searching for ticker " +:+ tk +:+ " with query: " +:+ query) st in
  match api w c i query with
  | Raise e => (st, inl e)
  | Return articles =>
      let found := default [] (resp_articles articles) in
      let st :=
        logger INFO ("Found " +:+ pretty (length found) +:+
                     " total articles for " +:+ tk) st in
      fetch_loop tk found st []
  end.

(** [NewsMonitor.fetch_news_for_ticker]: the [try] and its
    [except Exception] handler. *)
Definition fetch_news_for_ticker (w : world) (c i : nat) (tk : string)
    (st : state) : state * list NewsArticle :=
  match fetch_body w c i tk st with
  | (st, inr news_articles) => (st, news_articles)
  | (st, inl e) =>
      (logger ERROR ("Error fetching news for " +:+ tk +:+ ": " +:+ exn_text e) st,
       [])
  end.

(** [NewsMonitor.analyze_with_ai] *)
Definition analyze_with_ai : analyzer := fun u st =>
  (logger INFO (icon_robot +:+ " AI Analysis requested for: " +:+ u) st,
   inr [("sentiment", AStr "neutral");
        ("impact_score", AFloat (QArith_base.Qmake 1 2));
        ("summary", AStr "AI analysis not yet implemented");
        ("recommendation", AStr "monitor")]).

(** [NewsMonitor.process_article]; [analyze] is the method bound to
    [self.analyze_with_ai] at the time of the call. *)
Definition process_article_with (analyze : analyzer) (timestamp : string)
    (article : NewsArticle) (st : state) : state :=
  let st := logger INFO (icon_chart +:+ " soy news alert - " +:+ timestamp) st in
  let st := logger INFO (newline +:+ rule) st in
  let st := logger INFO rule st in
  let st := logger INFO ("Ticker: " +:+ format (ticker article)) st in
  let st := logger INFO ("Title: " +:+ format (title article)) st in
  let st := logger INFO ("Published: " +:+ format (published_at article)) st in
  let st := logger INFO ("URL: " +:+ url article) st in
  let st :=
    logger INFO ("Matched Keywords: " +:+ join ", " (matched_keywords article)) st in
  let st :=
    if truthy (description article) then
      let desc := format (description article) in
      let truncated_desc :=
        if 200 <? String.length desc
        then take 200 desc +:+ "..." else desc in
      logger INFO ("Description: " +:+ truncated_desc +:+ newline) st
    else st in
  match analyze (url article) st with
  | (st, inr ai_result) =>
      logger INFO
        ("AI Analysis: " +:+
         default "No summary available" (format_ai <$> ai_get ai_result "summary")
         +:+ newline) st
  | (st, inl e) =>
      let st := logger ERROR ("Error in AI analysis: " +:+ exn_text e) st in
      logger INFO (rule +:+ newline) st
  end.

Definition process_article : string → NewsArticle → state → state :=
  process_article_with analyze_with_ai.

(** The inner [for article in articles] loop of [check_news]; [j] is
    the position of the article in [articles]. *)
Fixpoint process_all (w : world) (c i j : nat) (articles : list NewsArticle)
    (st : state) (total_articles : nat) : state * nat :=
  match articles with
  | [] => (st, total_articles)
  | article :: rest =>
      let st := process_article (now w c i j) article st in
      process_all w c i (S j) rest st (total_articles + 1)
  end.

(** The outer [for ticker in self.config.tickers] loop. *)
Fixpoint check_tickers (w : world) (c i : nat) (tks : list string)
    (st : state) (total_articles : nat) : state * nat :=
  match tks with
  | [] => (st, total_articles)
  | tk :: rest =>
      let '(st, articles) := fetch_news_for_ticker w c i tk st in
      let '(st, total_articles) := process_all w c i 0 articles st total_articles in
      check_tickers w c (S i) rest st total_articles
  end.

(** [NewsMonitor.check_news], run as cycle number [c]. *)
Definition check_news (w : world) (c : nat) (st : state) : state :=
  let st :=
    logger INFO (icon_search +:+ " Checking news for tickers: " +:+
                 join ", " (tickers self)) st in
  let '(st, total_articles) := check_tickers w c 0 (tickers self) st 0 in
  if decide (total_articles = 0)
  then logger INFO "No new relevant articles found" st
  else logger INFO ("Found " +:+ pretty total_articles +:+
                    " new relevant articles") st.

(** Cycles [c], [c+1], ..., [c+n-1]. *)
Fixpoint cycles (w : world) (c n : nat) (st : state) : state :=
  match n with
  | O => st
  | S n' => cycles w (S c) n' (check_news w c st)
  end.

(** [NewsMonitor.start_monitoring] for a process that is interrupted
    after [scheduled] timer-driven cycles have followed the first. *)
Definition start_monitoring (w : world) (scheduled : nat) (st : state) : state :=
  let st :=
    logger INFO (newline +:+ newline +:+ icon_rocket +:+
                 " Starting Soy News Monitor" +:+ newline) st in
  let st :=
    logger INFO ("Monitoring tickers: " +:+ join ", " (tickers self) +:+ newline) st in
  let st :=
    logger INFO ("Refresh interval: " +:+ pretty (refresh_interval (config self)) +:+
                 " seconds" +:+ newline) st in
  let st :=
    logger INFO ("Keywords: " +:+ join ", " (List.firstn 5 keywords) +:+
                 "... (+" +:+ pretty (Z.of_nat (length keywords) - 5)%Z +:+
                 " more)" +:+ newline) st in
  let st := logger INFO ("Press Ctrl+C to stop" +:+ newline) st in
  let st := logger INFO (rule +:+ newline) st in
  let st := check_news w 0 st in
  let st := cycles w 1 scheduled st in
  let st :=
    logger INFO (newline +:+ icon_wave +:+ " Stopping Stock News Monitor...") st in
  logger INFO "Monitor stopped by user" st.

End WithMonitor.

(** The [default_factory] of [MonitorConfig.price_moving_keywords]. *)
Definition default_keywords : list string :=
  [ "commodities";
    "plantio"; "colheita";
    "clima"; "chuva";
    "seca"; "pragas";
    "doen" +:+ chr 231 +:+ "as"; "elninho";
    "geada"; "temperatura";
    "granizo"; "inunda" +:+ chr 231 +:+ chr 245 +:+ "es";
    "oferta"; "demanda";
    "safra"; "exporta" +:+ chr 231 +:+ chr 227 +:+ "o";
    "importa" +:+ chr 231 +:+ chr 227 +:+ "o";
    "especula" +:+ chr 231 +:+ chr 227 +:+ "o"; "tick de soja";
    "cota" +:+ chr 231 +:+ chr 227 +:+ "o da soja"; "contrato futuro soja";
    "Guerra"; "san" +:+ chr 231 +:+ chr 245 +:+ "es";
    "China"; "guerra comercial";
    "pol" +:+ chr 237 +:+ "tica agr" +:+ chr 237 +:+ "cola";
    "subs" +:+ chr 237 +:+ "dios";
    "tarifas"; "acordo comercial" ].

(** [main]: [news_api_key] is [apikeys.news_api_key], [interval] the
    [--interval] option when given. *)
Definition main (news_api_key : string) (interval : option Z)
    (w : world) (scheduled : nat) : NewsMonitor * state :=
  let config := mkMonitorConfig news_api_key (default 30%Z interval) default_keywords in
  let '(monitor, st) := __init__ config in
  (monitor, start_monitoring monitor w scheduled st).

End WithBuiltins.
End Monitor.

(** ** backtest.py *)

Module Backtest.

(** Objects are dynamically typed: an attribute holds a nullable text, a
    string or a list of strings. *)
Inductive attr :=
| AValue (v : value)
| AText (s : string)
| AList (l : list string).

(** An instance, as its attribute dict. *)
Definition object := list (string * attr).

Fixpoint attr_get (o : object) (name : string) : option attr :=
  match o with
  | [] => None
  | (n, v) :: rest => if String.eqb n name then Some v else attr_get rest name
  end.

Fixpoint attr_set (o : object) (name : string) (v : attr) : object :=
  match o with
  | [] => [(name, v)]
  | (n, v') :: rest =>
      if String.eqb n name then (n, v) :: rest
      else (n, v') :: attr_set rest name v
  end.

(** [@dataclass NewsArticle]: the declared fields, in order, each with
    its default when it has one. *)
Definition NewsArticle_fields : list (string * option attr) :=
  [ ("title", None);
    ("url", None);
    ("published_at", None);
    ("matched_keywords", Some (AList []));
    ("ticker", Some (AValue None_)) ].

Definition declared (name : string) : bool :=
  existsb (fun f => String.eqb f.1 name) NewsArticle_fields.

Definition missing_argument (cls name : string) : exn :=
  Exn "TypeError"
      (cls +:+ ".__init__() missing 1 required positional argument: '" +:+ name +:+ "'").

(** Binding of the declared fields to the keywords of a call. *)
Fixpoint bind_fields (fields : list (string * option attr)) (kwargs : object)
    : exn + object :=
  match fields with
  | [] => inr []
  | (name, dflt) :: rest =>
      match attr_get kwargs name, dflt with
      | Some v, _ | None, Some v =>
          match bind_fields rest kwargs with
          | inr o => inr ((name, v) :: o)
          | inl e => inl e
          end
      | None, None => inl (missing_argument "NewsArticle" name)
      end
  end.

(** The [__init__] that [@dataclass] generates, called with keywords
    only: a keyword that is not a declared field is refused. *)
Definition NewsArticle (kwargs : object) : exn + object :=
  match List.find (fun kv => negb (declared kv.1)) kwargs with
  | Some (kw, _) => inl (unexpected_keyword "NewsArticle" kw)
  | None => bind_fields NewsArticle_fields kwargs
  end.

(** [@dataclass MonitorConfig] *)
Record MonitorConfig := mkMonitorConfig {
  tickers : list string;
  api_key : string;
  refresh_interval : Z;
  price_moving_keywords : list string
}.

(** What [__init__] sets once: [self.config], [self.ticker_to_company]. *)
Record NewsMonitor := mkNewsMonitor {
  config : MonitorConfig;
  ticker_to_company : dict
}.

(** What changes: [self.processed_articles], the records handed to
    [logger], and the strings written to [articles.log]. *)
Record state := mkState {
  processed_articles : gset string;
  log : list record;
  file : list string
}.

(** Computations that read and change the state and may raise. *)
Definition M (A : Type) : Type := state → state * (exn + A).

#[export] Instance M_ret : MRet M := fun A x st => (st, inr x).

#[export] Instance M_bind : MBind M := fun A B k m st =>
  match m st with
  | (st, inr x) => k x st
  | (st, inl e) => (st, inl e)
  end.

Definition raise {A} (e : exn) : M A := fun st => (st, inl e).

(** [try: m  except Exception as e: handler e] *)
Definition try_except {A} (m : M A) (handler : exn → M A) : M A := fun st =>
  match m st with
  | (st, inr x) => (st, inr x)
  | (st, inl e) => handler e st
  end.

Definition lift {A} (r : exn + A) : M A := fun st => (st, r).

Definition logger (l : level) (msg : string) : M unit := fun st =>
  (mkState (processed_articles st) (emit l msg (log st)) (file st), inr tt).

(** [file.write(s)] on [articles.log], opened for appending. *)
Definition write (s : string) : M unit := fun st =>
  (mkState (processed_articles st) (log st) (file st ++ [s]), inr tt).

Definition seen (u : string) : M bool := fun st =>
  (st, inr (bool_decide (u ∈ processed_articles st))).

Definition mark (u : string) : M unit := fun st =>
  (mkState ({[u]} ∪ processed_articles st) (log st) (file st), inr tt).

(** [o.name] *)
Definition getattr (o : object) (name : string) : M attr :=
  match attr_get o name with
  | Some v => mret v
  | None => raise (AttributeError "NewsArticle" name)
  end.

Section WithBuiltins.
Context `{Builtins}.

Definition format_ai (v : ai_value) : string :=
  match v with
  | AStr s => s
  | AFloat q => format_float q
  end.

(** [f"{x}"] and [str(x)] *)
Definition format_attr (x : attr) : string :=
  match x with
  | AValue v => format v
  | AText s => s
  | AList l => format_list l
  end.

Definition truthy_attr (x : attr) : bool :=
  match x with
  | AValue v => truthy v
  | AText s => negb (String.eqb s "")
  | AList l => negb (bool_decide (l = []))
  end.

(** [sep.join(x)]: a list of strings is joined, a string is joined
    character by character, [None] is not iterable. *)
Definition join_attr (sep : string) (x : attr) : exn + string :=
  let chars s := map (fun c => String c "") (String.list_ascii_of_string s) in
  match x with
  | AList l => inr (join sep l)
  | AText s | AValue (Str s) => inr (join sep (chars s))
  | AValue None_ => inl (Exn "TypeError" "can only join an iterable")
  end.

Definition common_mappings : dict :=
  dict_of
    [ ("FUT SJC", "Futuro de soja na B3");
      ("CME", "CME Group");
      ("NYSE", "NYSE indice composto");
      ("B3", "Bolsa B3");
      ("ADM", "Archer Daniels Midland");
      ("CARG", "Cargill");
      ("Bunge", "Bunge");
      ("Louis Dreyfus", "Louis Dreyfus");
      ("Amaggi", "Amaggi");
      ("SLC Agr" +:+ chr 237 +:+ "cola", "SLC Agr" +:+ chr 237 +:+ "cola");
      ("BrasilAgro", "BrasilAgro");
      ("Viterra", "Viterra");
      ("COFCO International", "COFCO International");
      ("Syngenta", "Syngenta");
      ("Bayer", "Bayer");
      ("BASF", "BASF");
      ("Mosaic", "Mosaic");
      ("Nutrien", "Nutrien");
      ("ILPF", "relacao de preco soja e boi") ].

(** [NewsMonitor._build_ticker_mapping] *)
Definition _build_ticker_mapping (config : MonitorConfig) : dict :=
  dict_of (map (fun ticker => (ticker, get common_mappings ticker ticker))
               (tickers config)).

(** [NewsMonitor.__init__] *)
Definition __init__ (config : MonitorConfig) : NewsMonitor * state :=
  (mkNewsMonitor config (_build_ticker_mapping config), mkState ∅ [] []).

Section WithMonitor.
Variable self : NewsMonitor.

Definition keywords : list string := price_moving_keywords (config self).

Definition article_text (article : raw_article) : string :=
  format (default (Str "") (raw_title article)) +:+ " " +:+
  format (default (Str "") (raw_description article)).

(** [article.get('source', {}).get('name', 'Unknown')] *)
Definition source_name (article : raw_article) : value :=
  match raw_source article with
  | None => Str "Unknown"
  | Some src => default (Str "Unknown") (src_name src)
  end.

(** The keywords of the [NewsArticle(...)] call in the loop. *)
Definition call_keywords (tk u : string) (article : raw_article) : object :=
  [ ("title", AValue (default (Str "No title") (raw_title article)));
    ("url", AText u);
    ("published_at", AValue (default (Str "") (raw_publishedAt article)));
    ("source", AValue (source_name article));
    ("description", AValue (default (Str "") (raw_description article)));
    ("matched_keywords", AList []);
    ("ticker", AText tk) ].

(** The [for article in ...] loop of [fetch_news_for_ticker]. *)
Fixpoint fetch_loop (tk : string) (articles : list raw_article)
    (news_articles : list object) : M (list object) :=
  match articles with
  | [] => mret news_articles
  | article :: rest =>
      match raw_url article with
      | None => raise (KeyError "url")
      | Some u =>
          skip ← seen u;
          if skip : bool then fetch_loop tk rest news_articles
          else
            news_article ← lift (NewsArticle (call_keywords tk u article));
            let matched :=
              Shared._extract_matched_keywords keywords (article_text article) in
            t ← getattr news_article "title";
            logger INFO ("Article: " +:+ format_attr t);;
            logger INFO ("Matched keywords: " +:+ format_list matched);;
            let news_article :=
              attr_set news_article "matched_keywords" (AList matched) in
            match matched with
            | [] => fetch_loop tk rest news_articles
            | _ :: _ =>
                mark u;;
                fetch_loop tk rest (news_articles ++ [news_article])
            end
      end
  end.

(** The body of the [try] in [fetch_news_for_ticker]. *)
Definition fetch_body (w : world) (c i : nat) (tk : string) : M (list object) :=
  let query :=
    Shared._build_search_query (ticker_to_company self) keywords tk in
  logger DEBUG ("Searching for ticker " +:+ tk +:+ " with query: " +:+ query);;
  match api w c i query with
  | Raise e => raise e
  | Return articles =>
      let found := default [] (resp_articles articles) in
      logger INFO ("Found " +:+ pretty (length found) +:+
                   " total articles for " +:+ tk);;
      fetch_loop tk found []
  end.

(** [NewsMonitor.fetch_news_for_ticker] *)
Definition fetch_news_for_ticker (w : world) (c i : nat) (tk : string)
    : M (list object) :=
  try_except (fetch_body w c i tk)
    (fun e =>
       logger ERROR ("Error fetching news for " +:+ tk +:+ ": " +:+ exn_text e);;
       mret []).

(** [NewsMonitor.analyze_with_ai] *)
Definition analyze_with_ai (u : attr) : M ai_dict :=
  logger INFO (icon_robot +:+ " AI Analysis requested for: " +:+ format_attr u);;
  mret [("sentiment", AStr "neutral");
        ("impact_score", AFloat (QArith_base.Qmake 1 2));
        ("summary", AStr "AI analysis not yet implemented");
        ("recommendation", AStr "monitor")].

(** [NewsMonitor.process_article] *)
Definition process_article (timestamp : string) (article : object) : M unit :=
  write (icon_chart +:+ " STOCK NEWS ALERT - " +:+ timestamp);;
  write (newline +:+ rule);;
  write rule;;
  x ← getattr article "ticker"; write ("Ticker: " +:+ format_attr x);;
  x ← getattr article "title"; write ("Title: " +:+ format_attr x);;
  x ← getattr article "source"; write ("Source: " +:+ format_attr x);;
  x ← getattr article "published_at"; write ("Published: " +:+ format_attr x);;
  x ← getattr article "url"; write ("URL: " +:+ format_attr x);;
  x ← getattr article "matched_keywords";
  joined ← lift (join_attr ", " x);
  write ("Matched Keywords: " +:+ joined);;
  d ← getattr article "description";
  (if truthy_attr d then
     d ← getattr article "description";
     let desc := format_attr d in
     let truncated_desc :=
       if 200 <? String.length desc then take 200 desc +:+ "..." else desc in
     write ("Description: " +:+ truncated_desc +:+ newline)
   else mret tt);;
  try_except
    (u ← getattr article "url";
     ai_result ← analyze_with_ai u;
     write ("AI Analysis: " +:+
            default "No summary available" (format_ai <$> ai_get ai_result "summary")
            +:+ newline))
    (fun e =>
       logger ERROR ("Error in AI analysis: " +:+ exn_text e);;
       write (rule +:+ newline)).

Fixpoint process_all (w : world) (c i j : nat) (articles : list object)
    (total_articles : nat) : M nat :=
  match articles with
  | [] => mret total_articles
  | article :: rest =>
      process_article (now w c i j) article;;
      process_all w c i (S j) rest (total_articles + 1)
  end.

Fixpoint check_tickers (w : world) (c i : nat) (tks : list string)
    (total_articles : nat) : M nat :=
  match tks with
  | [] => mret total_articles
  | tk :: rest =>
      articles ← fetch_news_for_ticker w c i tk;
      total_articles ← process_all w c i 0 articles total_articles;
      check_tickers w c (S i) rest total_articles
  end.

(** [NewsMonitor.check_news], run as cycle number [c]. *)
Definition check_news (w : world) (c : nat) : M unit :=
  logger INFO (icon_search +:+ " Checking news for tickers: " +:+
               join ", " (tickers (config self)));;
  total_articles ← check_tickers w c 0 (tickers (config self)) 0;
  if decide (total_articles = 0)
  then logger INFO "No new relevant articles found"
  else logger INFO ("Found " +:+ pretty total_articles +:+
                    " new relevant articles").

Fixpoint cycles (w : world) (c n : nat) : M unit :=
  match n with
  | O => mret tt
  | S n' => check_news w c;; cycles w (S c) n'
  end.

(** [NewsMonitor.start_monitoring] for a process that is interrupted
    after [scheduled] timer-driven cycles have followed the first. *)
Definition start_monitoring (w : world) (scheduled : nat) : M unit :=
  write (newline +:+ newline +:+ icon_rocket +:+
         " Starting Stock News Monitor" +:+ newline);;
  write ("Monitoring tickers: " +:+ join ", " (tickers (config self)) +:+ newline);;
  write ("Refresh interval: " +:+ pretty (refresh_interval (config self)) +:+
         " seconds" +:+ newline);;
  write ("Keywords: " +:+ join ", " (List.firstn 5 keywords) +:+
         "... (+" +:+ pretty (Z.of_nat (length keywords) - 5)%Z +:+
         " more)" +:+ newline);;
  write ("Press Ctrl+C to stop" +:+ newline);;
  write (rule +:+ newline);;
  check_news w 0;;
  cycles w 1 scheduled;;
  write (newline +:+ icon_wave +:+ " Stopping Stock News Monitor...");;
  logger INFO "Monitor stopped by user".

End WithMonitor.

(** The [default_factory] of [MonitorConfig.price_moving_keywords].  A
    bare string literal in front of another one is joined to it by the
    parser, so four entries carry their heading. *)
Definition default_keywords : list string :=
  [ "coringas" +:+ "commodities"; "biodiesel";
    "biocombust" +:+ chr 237 +:+ "veis"; "estoques";
    "produ" +:+ chr 231 +:+ chr 227 +:+ "o"; "consumo";
    "pre" +:+ chr 231 +:+ "o"; "pre" +:+ chr 231 +:+ "os";
    "fatores naturais" +:+ "clima"; "chuva";
    "seca"; "pragas";
    "doen" +:+ chr 231 +:+ "as";
    "fatores de estrito mercado" +:+ "oferta"; "demanda";
    "d" +:+ chr 243 +:+ "lar"; "c" +:+ chr 226 +:+ "mbio";
    "safra"; "exporta" +:+ chr 231 +:+ chr 227 +:+ "o";
    "importa" +:+ chr 231 +:+ chr 227 +:+ "o";
    "fundos de investimento"; "bolsa de Chicago";
    "especula" +:+ chr 231 +:+ chr 227 +:+ "o"; "tick de soja";
    "cota" +:+ chr 231 +:+ chr 227 +:+ "o da soja";
    "fatores geopol" +:+ chr 237 +:+ "ticos" +:+ "Guerra";
    "san" +:+ chr 231 +:+ chr 245 +:+ "es";
    "China"; "guerra comercial";
    "pol" +:+ chr 237 +:+ "tica agr" +:+ chr 237 +:+ "cola";
    "subs" +:+ chr 237 +:+ "dios" ].

(** The command line after [parse_args]: [tickers] has [nargs='+'] and
    [--api-key] is required, so the parser leaves the process when
    either is missing. *)
Record args := mkArgs {
  args_tickers : list string;
  args_api_key : string;
  args_interval : Z
}.

Definition parse_args (positional : list string) (api_key : option string)
    (interval : option Z) : option args :=
  match positional, api_key with
  | _ :: _, Some k => Some (mkArgs positional k (default 60%Z interval))
  | _, _ => None
  end.

(** The configuration [main] builds from the parsed command line. *)
Definition main_config (a : args) : MonitorConfig :=
  let tickers := map upper (args_tickers a) in
  mkMonitorConfig tickers (args_api_key a) (args_interval a) default_keywords.

(** [main]; [None] when the argument parser ends the process. *)
Definition main (positional : list string) (api_key : option string)
    (interval : option Z) (w : world) (scheduled : nat)
    : option (NewsMonitor * (state * (exn + unit))) :=
  a ← parse_args positional api_key interval;
  let config := main_config a in
  let '(monitor, st) := __init__ config in
  Some (monitor, start_monitoring monitor w scheduled st).

End WithBuiltins.
End Backtest.

(** ** An interpretation of the built-ins on ASCII text

    Used to run the model on examples: case conversion of the letters
    [A]-[Z] and [a]-[z], [repr] of text free of quotes, backslashes and
    control characters, and [str] of a float with one decimal digit. *)

Module AsciiText.

Definition between (lo hi : nat) (c : ascii) : bool :=
  (lo <=? nat_of_ascii c) && (nat_of_ascii c <=? hi).

Definition lower_char (c : ascii) : ascii :=
  if between 65 90 c then ascii_of_nat (nat_of_ascii c + 32) else c.

Definition upper_char (c : ascii) : ascii :=
  if between 97 122 c then ascii_of_nat (nat_of_ascii c - 32) else c.

Fixpoint map_chars (f : ascii → ascii) (s : string) : string :=
  match s with
  | "" => ""
  | String c rest => String (f c) (map_chars f rest)
  end.

Definition one_decimal (q : QArith_base.Q) : string :=
  let tenths := (QArith_base.Qnum q * 10 / Z.pos (QArith_base.Qden q))%Z in
  pretty (tenths / 10)%Z +:+ "." +:+ pretty (tenths mod 10)%Z.

#[export] Instance builtins : Builtins := {|
  lower := map_chars lower_char;
  upper := map_chars upper_char;
  repr := fun s => "'" +:+ s +:+ "'";
  format_float := one_decimal
|}.

End AsciiText.

(** ** What the sink shows

    An article block carries one [URL: ...] line; the URLs of these lines,
    in the order written, are the articles the sink has received. *)

Module Sink.

(** The rest of [s] after the prefix [p], if [s] starts with [p]. *)
Fixpoint after (p s : string) : option string :=
  match p, s with
  | "", _ => Some s
  | String a p', String b s' => if Ascii.eqb a b then after p' s' else None
  | String _ _, "" => None
  end.

Definition url_of_record (r : record) : option string :=
  match r with
  | (INFO, msg) => after "URL: " msg
  | _ => None
  end.

Definition alerts (log : list record) : list string :=
  omap url_of_record log.

(** The same for the strings written to [articles.log]. *)
Definition file_alerts (file : list string) : list string :=
  omap (after "URL: ") file.

Definition description_lines (log : list record) : list record :=
  List.filter (fun r => prefix "Description: " r.2) log.

Definition summary_lines (log : list record) : list record :=
  List.filter (fun r => prefix "AI Analysis: " r.2) log.

End Sink.

Import Sink.

(** ** Shapes and predicates

    The query shape as the specification words it, and the predicates in
    which the properties of the poll cycle are stated. *)

(** The shape the specification gives: terms between double quotes,
    separated by [OR], between parentheses.  The double quote is written
    by its character code, ["034"]. *)
Definition double_quoted (term : string) : string :=
  String "034" (term +:+ String "034" "").

Fixpoint or_terms (first : string) (others : list string) : string :=
  match others with
  | [] => double_quoted first
  | next :: others => double_quoted first +:+ " OR " +:+ or_terms next others
  end.

Definition or_group (first : string) (others : list string) : string :=
  "(" +:+ or_terms first others +:+ ")".

(** The logged description: the first 200 characters and an ellipsis
    when it is longer than that. *)
Definition shown_description (desc : string) : string :=
  if 200 <? String.length desc then take 200 desc +:+ "..." else desc.

(** The records of an article block up to the call of the analysis. *)
Definition block_before_analysis (timestamp : string) (a : Monitor.NewsArticle)
    : list record :=
  [ (INFO, icon_chart +:+ " soy news alert - " +:+ timestamp);
    (INFO, newline +:+ rule);
    (INFO, rule);
    (INFO, "Ticker: " +:+ format (Monitor.ticker a));
    (INFO, "Title: " +:+ format (Monitor.title a));
    (INFO, "Published: " +:+ format (Monitor.published_at a));
    (INFO, "URL: " +:+ Monitor.url a);
    (INFO, "Matched Keywords: " +:+ join ", " (Monitor.matched_keywords a)) ] ++
  (if truthy (Monitor.description a)
   then [(INFO, "Description: " +:+
                shown_description (format (Monitor.description a)) +:+ newline)]
   else []).

(** The fixed payload of the analysis stub. *)
Definition neutral_payload : ai_dict :=
  [ ("sentiment", AStr "neutral");
    ("impact_score", AFloat (QArith_base.Qmake 1 2));
    ("summary", AStr "AI analysis not yet implemented");
    ("recommendation", AStr "monitor") ].

(** An analysis service that fails. *)
Definition failing_analyzer : Monitor.analyzer :=
  fun _ st => (st, inl (Exn "RuntimeError" "service unavailable")).

(** The query that the specification gives for ADM with the keywords
    clima and safra, as a literal; ["034"] is the double quote. *)
Definition adm_query : string :=
  "(" +:+ String "034" "ADM" +:+ String "034" " OR " +:+
  String "034" "Archer Daniels Midland" +:+ String "034" ") AND (" +:+
  String "034" "clima" +:+ String "034" " OR " +:+
  String "034" "safra" +:+ String "034" ")".

(** What the API handed over in cycle [c] for the ticker [tk] at
    position [i]. *)
Definition delivered (self : Monitor.NewsMonitor) (w : world) (c i : nat)
    (tk : string) (r : raw_article) : Prop :=
  ∃ resp,
    api w c i (Shared._build_search_query (Monitor.ticker_to_company self)
                 (Monitor.keywords self) tk) = Return resp ∧
    r ∈ default [] (resp_articles resp).

(** Some configured keyword occurs in the text of the article, case
    aside. *)
Definition relevant `{Builtins} (self : Monitor.NewsMonitor) (r : raw_article) : Prop :=
  ∃ k, k ∈ Monitor.keywords self ∧
       ∃ pre post, lower (Monitor.article_text r) = pre +:+ lower k +:+ post.

(** The article record built from the raw article [r] with URL [u]. *)
Definition article_of `{Builtins} (self : Monitor.NewsMonitor) (tk u : string)
    (r : raw_article) : Monitor.NewsArticle :=
  Monitor.set_matched_keywords (Monitor.new_article tk u r)
    (Shared._extract_matched_keywords (Monitor.keywords self) (Monitor.article_text r)).

(** [a] was built from an article of [arts] that was not seen in [st] and
    has a keyword. *)
Definition fetched_from `{Builtins} (self : Monitor.NewsMonitor) (tk : string)
    (arts : list raw_article) (st : Monitor.state) (a : Monitor.NewsArticle) : Prop :=
  (Monitor.url a ∉ Monitor.processed_articles st) ∧
  ∃ r, r ∈ arts ∧ raw_url r = Some (Monitor.url a) ∧
       a = article_of self tk (Monitor.url a) r ∧
       Monitor.matched_keywords a ≠ [] ∧ relevant self r.

(** The URL [u] was handed over in cycle [c] for one of the tickers [tks]
    (which start at position [i]), on an article with a keyword. *)
Definition origin `{Builtins} (self : Monitor.NewsMonitor) (w : world) (c i : nat)
    (tks : list string) (u : string) : Prop :=
  ∃ j tk r, tks !! j = Some tk ∧ delivered self w c (i + j) tk r ∧
            raw_url r = Some u ∧ relevant self r.

(** From [st] to [st'] the seen set only grew, and the sink received
    alerts for distinct URLs, none of them seen in [st], all of them seen
    in [st'], each satisfying [P]. *)
Definition extends (P : string → Prop) (st st' : Monitor.state) : Prop :=
  Monitor.processed_articles st ⊆ Monitor.processed_articles st' ∧
  ∃ new,
    alerts (Monitor.log st') = alerts (Monitor.log st) ++ new ∧
    NoDup new ∧
    ∀ u, u ∈ new →
         (u ∉ Monitor.processed_articles st) ∧ u ∈ Monitor.processed_articles st' ∧ P u.

(** Every article the API hands over carries a URL. *)
Definition well_formed (self : Monitor.NewsMonitor) (w : world) : Prop :=
  ∀ c i tk r, delivered self w c i tk r → is_Some (raw_url r).

(** Every URL that is seen has had its alert. *)
Definition settled (st : Monitor.state) : Prop :=
  ∀ u, u ∈ Monitor.processed_articles st → u ∈ alerts (Monitor.log st).

(** ** Scenarios *)

(** The monitor of [stock_news_monitor.py] over its default keywords. *)
Definition soy : Monitor.NewsMonitor :=
  (Monitor.__init__ (Monitor.mkMonitorConfig "key" 30 Monitor.default_keywords)).1.

Definition fresh : Monitor.state := Monitor.mkState ∅ [].

(** An article that names a keyword, one that names none, and one that
    lacks the [url] key. *)
Definition harvest : raw_article :=
  RawArticle (Some (Str "Safra recorde de soja"))
             (Some "https://example.org/safra")
             (Some (Str "2025-01-01T00:00:00Z"))
             (Some (Str "A colheita avanca no sul"))
             (Some (SourceObject (Some (Str "Example")))).

Definition football : raw_article :=
  RawArticle (Some (Str "Final do campeonato"))
             (Some "https://example.org/jogo")
             (Some (Str "2025-01-01T00:00:00Z"))
             (Some (Str "O time venceu"))
             (Some (SourceObject (Some (Str "Example")))).

Definition no_url : raw_article :=
  RawArticle (Some (Str "Chuva no sul")) None None None None.

(** An article whose title ends with the first word of the keyword
    [acordo comercial] and whose description starts with the second. *)
Definition trade_deal : raw_article :=
  RawArticle (Some (Str "Paises fecham novo acordo"))
             (Some "https://example.org/acordo")
             (Some (Str "2025-01-01T00:00:00Z"))
             (Some (Str "comercial de fertilizantes"))
             (Some (SourceObject (Some (Str "Example")))).

Definition clock : nat → nat → nat → string := fun _ _ _ => "2025-01-01 00:00:00".

(** The API is unreachable. *)
Definition network_down : world :=
  World (fun _ _ _ => Raise (Exn "ConnectionError" "network unreachable")) clock.

(** Every call is answered with the same single article. *)
Definition same_article_twice : world :=
  World (fun _ _ _ => Return (Response (Some [harvest]))) clock.

(** The first cycle is answered with the article followed by a malformed
    one, the later cycles with the article alone. *)
Definition malformed_then_same : world :=
  World (fun c _ _ =>
           match c with
           | O => Return (Response (Some [harvest; no_url]))
           | S _ => Return (Response (Some [harvest]))
           end) clock.

(** Every call is answered with the article on the trade deal. *)
Definition trade_news : world :=
  World (fun _ _ _ => Return (Response (Some [trade_deal]))) clock.

(** The article comes without a description. *)
Definition headline_only : world :=
  World (fun _ _ _ =>
           Return (Response (Some
             [RawArticle (Some (Str "Safra recorde de soja"))
                         (Some "https://example.org/safra")
                         (Some (Str "2025-01-01T00:00:00Z"))
                         (Some (Str ""))
                         None])))
        clock.

(** The monitor of [backtest.py] started as [backtest.py adm --api-key key]. *)
Definition adm_args : Backtest.args := Backtest.mkArgs ["adm"] "key" 60.

Definition adm_monitor : Backtest.NewsMonitor :=
  (Backtest.__init__ (@Backtest.main_config AsciiText.builtins adm_args)).1.

Definition adm_fresh : Backtest.state := Backtest.mkState ∅ [] [].

(** An emitted article whose description is empty. *)
Definition terse : Monitor.NewsArticle :=
  Monitor.mkNewsArticle (Str "Safra recorde de soja") "https://example.org/safra"
    (Str "2025-01-01T00:00:00Z") (Str "") ["safra"] (Str "Brasil").

(** An emitted article with a description of 250 characters. *)
Definition verbose : Monitor.NewsArticle :=
  Monitor.mkNewsArticle (Str "Safra recorde de soja") "https://example.org/safra"
    (Str "2025-01-01T00:00:00Z") (Str (repeat_str "safra" 50)) ["safra"] (Str "Brasil").

(** ** Further shapes

    The constants of [common_mappings] by the case of their key, the
    banner of [backtest.py], the closing record of a cycle, and the origin
    of a seen URL. *)

(** The keys of [common_mappings] that hold a lower-case letter. *)
Definition mixed_case_keys : list string :=
  [ "Bunge"; "Louis Dreyfus"; "Amaggi"; "SLC Agr" +:+ chr 237 +:+ "cola";
    "BrasilAgro"; "Viterra"; "COFCO International"; "Syngenta"; "Bayer";
    "Mosaic"; "Nutrien" ].

(** The entries of [common_mappings] whose key is in upper case. *)
Definition upper_case_entries : list (string * string) :=
  [ ("FUT SJC", "Futuro de soja na B3");
    ("CME", "CME Group");
    ("NYSE", "NYSE indice composto");
    ("B3", "Bolsa B3");
    ("ADM", "Archer Daniels Midland");
    ("CARG", "Cargill");
    ("BASF", "BASF");
    ("ILPF", "relacao de preco soja e boi") ].

(** The four words that the default list of [backtest.py] only holds
    glued to the heading in front of them. *)
Definition glued_words : list string := ["commodities"; "clima"; "oferta"; "Guerra"].

(** What [start_monitoring] of [backtest.py] writes before the first
    cycle. *)
Definition backtest_banner (self : Backtest.NewsMonitor) : list string :=
  [ newline +:+ newline +:+ icon_rocket +:+ " Starting Stock News Monitor" +:+ newline;
    "Monitoring tickers: " +:+
      join ", " (Backtest.tickers (Backtest.config self)) +:+ newline;
    "Refresh interval: " +:+
      pretty (Backtest.refresh_interval (Backtest.config self)) +:+
      " seconds" +:+ newline;
    "Keywords: " +:+ join ", " (List.firstn 5 (Backtest.keywords self)) +:+
      "... (+" +:+ pretty (Z.of_nat (length (Backtest.keywords self)) - 5)%Z +:+
      " more)" +:+ newline;
    "Press Ctrl+C to stop" +:+ newline;
    rule +:+ newline ].

(** The strings of a block that [process_article] of [backtest.py] has
    written when it reads [article.source]. *)
Definition backtest_partial_block (timestamp : string) (tk title : Backtest.attr)
    `{Builtins} : list string :=
  [ icon_chart +:+ " STOCK NEWS ALERT - " +:+ timestamp;
    newline +:+ rule;
    rule;
    "Ticker: " +:+ Backtest.format_attr tk;
    "Title: " +:+ Backtest.format_attr title ].

(** The record that closes a cycle in which [n] articles were written. *)
Definition summary_record (n : nat) : record :=
  (INFO, if decide (n = 0) then "No new relevant articles found"
         else "Found " +:+ pretty n +:+ " new relevant articles").

(** The record that opens a cycle. *)
Definition header_record (self : Monitor.NewsMonitor) : record :=
  (INFO, icon_search +:+ " Checking news for tickers: " +:+
         join ", " (Monitor.tickers self)).

(** Every URL seen in [st'] was seen in [st] or satisfies [P]. *)
Definition marks_from (P : string → Prop) (st st' : Monitor.state) : Prop :=
  ∀ u, u ∈ Monitor.processed_articles st' → u ∈ Monitor.processed_articles st ∨ P u.

(** A monitor of [stock_news_monitor.py] whose only keyword is the empty
    string, and one with two keywords. *)
Definition catch_all : Monitor.NewsMonitor :=
  Monitor.mkNewsMonitor (Monitor.mkMonitorConfig "key" 30 [""]) ["Brasil"]
    Monitor._build_ticker_mapping.

Definition no_keywords : Monitor.NewsMonitor :=
  Monitor.mkNewsMonitor (Monitor.mkMonitorConfig "key" 30 []) ["Brasil"]
    Monitor._build_ticker_mapping.

(** The keywords of a constructor call that names the required fields
    only. *)
Definition required_only : Backtest.object :=
  [ ("title", Backtest.AText "Safra recorde de soja");
    ("url", Backtest.AText "https://example.org/safra");
    ("published_at", Backtest.AText "2025-01-01T00:00:00Z") ].

Definition two_keywords : Monitor.NewsMonitor :=
  Monitor.mkNewsMonitor (Monitor.mkMonitorConfig "key" 30 ["clima"; "safra"]) ["Brasil"]
    Monitor._build_ticker_mapping.

(** * Properties *)

(** ** Strings *)

Lemma prefix_true_iff (p s : string) :
  prefix p s = true ↔ ∃ t, s = p +:+ t.
Proof.
  revert s. induction p as [|a p IH]; intros s; simpl.
  - split; [intros _; by exists s | done].
  - destruct s as [|b s]; [split; [done | intros [t Ht]; discriminate]|].
    rewrite andb_true_iff, Ascii.eqb_eq, IH.
    split.
    + intros [-> [t ->]]. by exists t.
    + intros [t Ht]. injection Ht as -> ->. eauto.
Qed.

Lemma str_in_unfold (needle hay : string) :
  str_in needle hay =
  if prefix needle hay then true
  else match hay with "" => false | String _ rest => str_in needle rest end.
Proof. by destruct hay. Qed.

(** [needle in hay] holds exactly when [hay] is some text, then [needle],
    then some text. *)
Lemma str_in_true_iff (needle hay : string) :
  str_in needle hay = true ↔ ∃ pre post, hay = pre +:+ needle +:+ post.
Proof.
  split.
  - induction hay as [|c hay IH]; rewrite str_in_unfold.
    + destruct (prefix needle "") eqn:Hp; [|done].
      intros _. apply prefix_true_iff in Hp as [t Ht]. by exists "", t.
    + destruct (prefix needle (String c hay)) eqn:Hp.
      * intros _. apply prefix_true_iff in Hp as [t Ht]. by exists "", t.
      * intros Hin. destruct (IH Hin) as (pre & post & ->).
        by exists (String c pre), post.
  - intros (pre & post & ->). induction pre as [|c pre IH]; rewrite str_in_unfold.
    + replace (prefix needle ("" +:+ needle +:+ post)) with true; [done|].
      symmetry. apply prefix_true_iff. by exists post.
    + destruct (prefix needle _); [done | exact IH].
Qed.

Lemma length_take (n : nat) (s : string) :
  n ≤ String.length s → String.length (take n s) = n.
Proof.
  revert s. induction n as [|n IH]; intros [|c s]; simpl; try done; try lia.
  intros Hn. rewrite IH; lia.
Qed.

Lemma take_prefix (n : nat) (s : string) : ∃ t, s = take n s +:+ t.
Proof.
  revert s. induction n as [|n IH]; intros [|c s]; simpl; eauto.
  destruct (IH s) as [t Ht]. exists t.
  change (String c s = String c (take n s +:+ t)). by f_equal.
Qed.

Lemma append_assoc (a b c : string) : (a +:+ b) +:+ c = a +:+ b +:+ c.
Proof.
  induction a as [|x a IH]; [done|].
  change (String x ((a +:+ b) +:+ c) = String x (a +:+ b +:+ c)). by f_equal.
Qed.

(** ** KeywordMatcher *)

Section Matcher.
Context `{Builtins}.

(** The loop keeps what it has and adds the keywords found, in list
    order. *)
Lemma extract_loop_filter (text_lower : string) (keywords matched : list string) :
  Shared.extract_loop text_lower keywords matched =
  matched ++ List.filter (fun k => str_in (lower k) text_lower) keywords.
Proof.
  revert matched. induction keywords as [|k ks IH]; intros matched; simpl.
  - by rewrite app_nil_r.
  - destruct (str_in (lower k) text_lower); rewrite IH; [|done].
    by rewrite <- app_assoc.
Qed.

Lemma extract_filter (keywords : list string) (text : string) :
  Shared._extract_matched_keywords keywords text =
  List.filter (fun k => str_in (lower k) (lower text)) keywords.
Proof. unfold Shared._extract_matched_keywords. by rewrite extract_loop_filter. Qed.

Lemma sublist_bool_filter {A} (f : A → bool) (l : list A) :
  sublist (List.filter f l) l.
Proof.
  induction l as [|x l IH]; simpl; [constructor|].
  destruct (f x); by constructor.
Qed.

Lemma count_occ_bool_filter (f : string → bool) (l : list string) (k : string) :
  count_occ String.eq_dec (List.filter f l) k =
  if f k then count_occ String.eq_dec l k else 0.
Proof.
  induction l as [|x l IH]; simpl; [by destruct (f k)|].
  destruct (f x) eqn:Hx; simpl; destruct (String.eq_dec x k) as [->|Hne];
    rewrite IH; try done.
  - by rewrite Hx.
  - by rewrite Hx.
Qed.

Lemma extract_empty_iff (keywords : list string) (text : string) :
  Shared._extract_matched_keywords keywords text = [] ↔
  ∀ k, k ∈ keywords → ¬ ∃ pre post, lower text = pre +:+ lower k +:+ post.
Proof.
  rewrite extract_filter. induction keywords as [|k ks IH]; simpl.
  - split; [intros _ k Hk; by apply elem_of_nil in Hk | done].
  - destruct (str_in (lower k) (lower text)) eqn:Hin.
    + split; [done|]. intros Hno. exfalso. apply (Hno k); [left|].
      by apply str_in_true_iff.
    + rewrite IH. split.
      * intros Hno k' [->|Hk']%elem_of_cons; [|by apply Hno].
        rewrite <- str_in_true_iff. by rewrite Hin.
      * intros Hno k' Hk'. apply Hno. by right.
Qed.

(** C4. [_extract_matched_keywords] returns exactly the configured
    keywords that occur in the text when both are lower-cased, as a
    subsequence of the configured list (so in its order, whatever the
    order of occurrence in the text); a keyword is reported as often as
    the configured list names it, however often the text contains it:
    once when the list names it once, and the result has no repeated
    entry when the list has none. *)
Theorem extract_matches_subsequence (keywords : list string) (text : string) :
  let found k := str_in (lower k) (lower text) in
  let matched := Shared._extract_matched_keywords keywords text in
  matched = List.filter found keywords
  ∧ sublist matched keywords
  ∧ (∀ k, k ∈ matched ↔
          k ∈ keywords ∧ ∃ pre post, lower text = pre +:+ lower k +:+ post)
  ∧ (∀ k, count_occ String.eq_dec matched k =
          if found k then count_occ String.eq_dec keywords k else 0)
  ∧ (∀ k, count_occ String.eq_dec keywords k = 1 → k ∈ matched →
          count_occ String.eq_dec matched k = 1)
  ∧ (NoDup keywords → NoDup matched).
Proof.
  intros found matched. subst matched. rewrite extract_filter.
  split; [done|]. split; [apply sublist_bool_filter|]. split; [|split; [|split]].
  - intros k. rewrite !list_elem_of_In, filter_In. unfold found.
    by rewrite str_in_true_iff.
  - intros k. apply count_occ_bool_filter.
  - intros k Hone Hk. rewrite count_occ_bool_filter, Hone.
    apply list_elem_of_In, filter_In in Hk as [_ Hfound]. by rewrite Hfound.
  - intros Hnd. eapply sublist_NoDup; [exact Hnd | apply sublist_bool_filter].
Qed.

End Matcher.

(** ** QueryBuilder *)

(** [f'"{x}"'] puts [x] between two double quotes. *)
Lemma quoted_double_quoted (x : string) : Shared.quoted x = double_quoted x.
Proof. reflexivity. Qed.

Lemma join_or_terms (k : string) (rest : list string) :
  join " OR " (map Shared.quoted (k :: rest)) = or_terms k rest.
Proof.
  revert k. induction rest as [|k' rest IH]; intros k; [done|].
  change (join " OR " (map Shared.quoted (k :: k' :: rest))) with
    (Shared.quoted k +:+ " OR " +:+ join " OR " (map Shared.quoted (k' :: rest))).
  by rewrite IH, quoted_double_quoted.
Qed.

(** C5. For a ticker, its alias in the mapping (the ticker itself when
    the mapping has none) and a non-empty keyword list, the query is an
    opening parenthesis, the ticker between double quotes, OR, the alias
    between double quotes, a closing parenthesis, AND, and the keywords,
    each between double quotes, joined by OR between parentheses; for
    ADM, Archer Daniels Midland and the keywords clima and safra it is
    exactly the string of the specification, written here as a literal
    with ["034"] for the double quote. *)
Theorem build_search_query_shape :
  (∀ (ticker_to_company : dict) (keywords : list string) (ticker : string),
     keywords ≠ [] →
     ∃ k rest, keywords = k :: rest ∧
       Shared._build_search_query ticker_to_company keywords ticker =
       "(" +:+ String "034" ticker +:+ String "034" " OR " +:+
       String "034" (get ticker_to_company ticker ticker) +:+
       String "034" ") AND " +:+ or_group k rest)
  ∧ Shared._build_search_query
      (dict_of [("ADM", "Archer Daniels Midland")]) ["clima"; "safra"] "ADM"
    = "(" +:+ String "034" "ADM" +:+ String "034" " OR " +:+
      String "034" "Archer Daniels Midland" +:+ String "034" ") AND (" +:+
      String "034" "clima" +:+ String "034" " OR " +:+
      String "034" "safra" +:+ String "034" ")".
Proof.
  split; [|reflexivity].
  intros m keywords tk Hne. destruct keywords as [|k rest]; [done|].
  exists k, rest. split; [done|].
  unfold Shared._build_search_query, or_group. rewrite join_or_terms.
  unfold Shared.quoted, dquote.
  change (String (ascii_of_nat 34) "") with (String "034" "").
  rewrite !append_assoc. reflexivity.
Qed.

Lemma build_search_query_shape_witness :
  ["clima"; "safra"] ≠ [] ∧
  ∃ k rest, ["clima"; "safra"] = k :: rest ∧
    Shared._build_search_query
      (dict_of [("ADM", "Archer Daniels Midland")]) ["clima"; "safra"] "ADM" =
    "(" +:+ String "034" "ADM" +:+ String "034" " OR " +:+
    String "034" (get (dict_of [("ADM", "Archer Daniels Midland")]) "ADM" "ADM") +:+
    String "034" ") AND " +:+ or_group k rest.
Proof.
  split; [discriminate|].
  apply (proj1 build_search_query_shape). discriminate.
Defined.

(** ** ArticleSink *)

Section SinkProperties.
Context `{Builtins}.

(** [process_article] appends the block, calls the analysis on the
    state reached, and closes the block by its answer. *)
Lemma process_article_with_eq (analyze : Monitor.analyzer) (ts : string)
    (a : Monitor.NewsArticle) (st : Monitor.state) :
  Monitor.process_article_with analyze ts a st =
  match analyze (Monitor.url a)
          (Monitor.mkState (Monitor.processed_articles st)
             (Monitor.log st ++ block_before_analysis ts a)) with
  | (st', inr ai_result) =>
      Monitor.logger INFO
        ("AI Analysis: " +:+
         default "No summary available"
           (Monitor.format_ai <$> ai_get ai_result "summary") +:+ newline) st'
  | (st', inl e) =>
      Monitor.logger INFO (rule +:+ newline)
        (Monitor.logger ERROR ("Error in AI analysis: " +:+ exn_text e) st')
  end.
Proof.
  unfold Monitor.process_article_with, block_before_analysis, shown_description.
  unfold Monitor.logger, emit.
  cbn [enabled Monitor.processed_articles Monitor.log].
  destruct (truthy (Monitor.description a));
    rewrite <- ?app_assoc, ?app_nil_r; reflexivity.
Qed.

Lemma process_article_log (ts : string) (a : Monitor.NewsArticle)
    (st : Monitor.state) :
  Monitor.process_article ts a st =
  Monitor.mkState (Monitor.processed_articles st)
    (Monitor.log st ++ block_before_analysis ts a ++
     [ (INFO, icon_robot +:+ " AI Analysis requested for: " +:+ Monitor.url a);
       (INFO, "AI Analysis: " +:+ "AI analysis not yet implemented" +:+ newline) ]).
Proof.
  unfold Monitor.process_article. rewrite process_article_with_eq.
  unfold Monitor.analyze_with_ai, Monitor.logger, emit. simpl.
  by rewrite <- !app_assoc.
Qed.

End SinkProperties.

Lemma length_append (a b : string) :
  String.length (a +:+ b) = String.length a + String.length b.
Proof.
  induction a as [|x a IH]; [done|].
  change (S (String.length (a +:+ b)) = S (String.length a + String.length b)).
  by rewrite IH.
Qed.

Section SinkBlock.
Context `{Builtins}.

Lemma description_lines_before (ts : string) (a : Monitor.NewsArticle) :
  description_lines (block_before_analysis ts a) =
  if truthy (Monitor.description a)
  then [(INFO, "Description: " +:+
               shown_description (format (Monitor.description a)) +:+ newline)]
  else [].
Proof.
  unfold block_before_analysis, description_lines.
  rewrite List.filter_app. destruct (truthy (Monitor.description a)); reflexivity.
Qed.

(** C8. The analysis stub answers every URL with the same neutral
    payload; and whatever analysis is bound, when its call raises, the
    block is closed by an error record and a separator line, no summary
    line is written, and [process_article] returns. *)
Theorem analysis_stub_and_fallback :
  (∀ (u : string) (st : Monitor.state),
     Monitor.analyze_with_ai u st =
     (Monitor.logger INFO (icon_robot +:+ " AI Analysis requested for: " +:+ u) st,
      inr neutral_payload))
  ∧ ai_get neutral_payload "sentiment" = Some (AStr "neutral")
  ∧ ai_get neutral_payload "impact_score" = Some (AFloat (QArith_base.Qmake 1 2))
  ∧ ai_get neutral_payload "summary" = Some (AStr "AI analysis not yet implemented")
  ∧ ai_get neutral_payload "recommendation" = Some (AStr "monitor")
  ∧ (∀ (analyze : Monitor.analyzer) (ts : string) (a : Monitor.NewsArticle)
       (st st' : Monitor.state) (e : exn),
       analyze (Monitor.url a)
         (Monitor.mkState (Monitor.processed_articles st)
            (Monitor.log st ++ block_before_analysis ts a)) = (st', inl e) →
       let closing :=
         [ (ERROR, "Error in AI analysis: " +:+ exn_text e);
           (INFO, rule +:+ newline) ] in
       Monitor.process_article_with analyze ts a st =
       Monitor.mkState (Monitor.processed_articles st') (Monitor.log st' ++ closing)
       ∧ summary_lines closing = []).
Proof.
  split; [intros; reflexivity|]. do 4 (split; [reflexivity|]).
  intros analyze ts a st st' e Hraise closing.
  split; [|reflexivity].
  rewrite process_article_with_eq, Hraise.
  unfold Monitor.logger, emit; simpl. by rewrite <- app_assoc.
Qed.

(** C9, amended. A block has a description line only when the
    description is neither empty nor null; the line then shows the
    description itself when it has at most 200 characters, and its first
    200 characters followed by an ellipsis when it has more, so 203
    characters for a description of 250. *)
Theorem description_line_truncated (ts : string) (a : Monitor.NewsArticle)
    (st : Monitor.state) :
  let d := format (Monitor.description a) in
  (∃ block,
     Monitor.log (Monitor.process_article ts a st) = Monitor.log st ++ block ∧
     description_lines block =
     if truthy (Monitor.description a)
     then [(INFO, "Description: " +:+ shown_description d +:+ newline)]
     else [])
  ∧ (200 < String.length d →
     shown_description d = take 200 d +:+ "..." ∧
     String.length (take 200 d) = 200 ∧ ∃ rest, d = take 200 d +:+ rest)
  ∧ (String.length d ≤ 200 → shown_description d = d)
  ∧ (String.length d = 250 → String.length (shown_description d) = 203).
Proof.
  intros d. split; [|split; [|split]].
  - eexists. rewrite process_article_log. split; [reflexivity|].
    unfold description_lines. rewrite List.filter_app.
    fold (description_lines (block_before_analysis ts a)).
    rewrite description_lines_before.
    destruct (truthy (Monitor.description a)); reflexivity.
  - intros Hlong. unfold shown_description.
    destruct (Nat.ltb_spec 200 (String.length d)); [|lia].
    split; [done|]. split; [apply length_take; lia | apply take_prefix].
  - intros Hshort. unfold shown_description.
    destruct (Nat.ltb_spec 200 (String.length d)); [lia | done].
  - intros H250. unfold shown_description.
    destruct (Nat.ltb_spec 200 (String.length d)); [|lia].
    rewrite length_append, length_take by lia. reflexivity.
Qed.

End SinkBlock.

(** ** ArticleFetcher *)

Section Fetcher.
Context `{Builtins}.
Variable self : Monitor.NewsMonitor.

Lemma alerts_app (l1 l2 : list record) : alerts (l1 ++ l2) = alerts l1 ++ alerts l2.
Proof. apply omap_app. Qed.

Lemma alerts_emit_other (l : level) (msg : string) (log : list record) :
  url_of_record (l, msg) = None → alerts (emit l msg log) = alerts log.
Proof.
  intros Hno. unfold emit. destruct (enabled l); [|done].
  rewrite alerts_app.
  change (alerts [(l, msg)]) with
    (match url_of_record (l, msg) with Some u => [u] | None => [] end).
  rewrite Hno. apply app_nil_r.
Qed.

Lemma relevant_iff (r : raw_article) :
  relevant self r ↔
  Shared._extract_matched_keywords (Monitor.keywords self) (Monitor.article_text r) ≠ [].
Proof.
  rewrite extract_empty_iff. unfold relevant. split.
  - intros (k & Hk & Hin) Hno. by apply (Hno k).
  - intros Hsome.
    destruct (Shared._extract_matched_keywords (Monitor.keywords self)
                (Monitor.article_text r)) as [|k ks] eqn:Hm.
    + exfalso. apply Hsome. by apply extract_empty_iff.
    + assert (k ∈ Shared._extract_matched_keywords (Monitor.keywords self)
                    (Monitor.article_text r)) as Hk by (rewrite Hm; left).
      rewrite extract_filter, list_elem_of_In, filter_In in Hk.
      destruct Hk as [Hk Hin]. apply list_elem_of_In in Hk.
      apply str_in_true_iff in Hin. eauto.
Qed.

(** The loop: the seen set grows by the URLs of the articles it adds,
    the sink is not touched, the only exception is the missing [url]
    key, and every article added comes from an unseen raw article with a
    keyword. *)
Lemma fetch_loop_spec (tk : string) (arts : list raw_article) :
  ∀ (st : Monitor.state) (acc : list Monitor.NewsArticle) st' res,
    Monitor.fetch_loop self tk arts st acc = (st', res) →
    Monitor.processed_articles st ⊆ Monitor.processed_articles st' ∧
    alerts (Monitor.log st') = alerts (Monitor.log st) ∧
    match res with
    | inl e => e = KeyError "url"
    | inr out =>
        ∃ new, out = acc ++ new ∧
          NoDup (map Monitor.url new) ∧
          (∀ u, u ∈ Monitor.processed_articles st' ↔
                u ∈ Monitor.processed_articles st ∨ u ∈ map Monitor.url new) ∧
          Forall (fetched_from self tk arts st) new
    end.
Proof.
  induction arts as [|article rest IH]; intros st acc st' res; simpl.
  - intros [= <- <-]. split; [done|]. split; [done|].
    exists []. rewrite app_nil_r. split; [done|]. split; [constructor|].
    split; [|constructor]. intros u. rewrite elem_of_nil. tauto.
  - destruct (raw_url article) as [u|] eqn:Hurl; [|by intros [= <- <-]].
    case_bool_decide as Hseen.
    { intros Hloop. apply IH in Hloop as (Hsub & Hal & Hres).
      split; [done|]. split; [done|].
      destruct res as [e|out]; [done|].
      destruct Hres as (new & -> & Hnd & Hset & Hall).
      exists new. repeat split; try done; try apply Hset.
      eapply Forall_impl; [exact Hall|].
      intros a (Hfresh & r & Hr & Hrest). split; [done|].
      exists r. split; [by right | done]. }
    set (matched := Shared._extract_matched_keywords _ _).
    destruct matched as [|k ks] eqn:Hm.
    { intros Hloop. apply IH in Hloop as (Hsub & Hal & Hres). simpl in *.
      split; [done|]. split.
      { rewrite Hal. rewrite !alerts_emit_other; done. }
      destruct res as [e|out]; [done|].
      destruct Hres as (new & -> & Hnd & Hset & Hall).
      exists new. repeat split; try done; try apply Hset.
      eapply Forall_impl; [exact Hall|].
      intros a (Hfresh & r & Hr & Hrest). split; [done|].
      exists r. split; [by right | done]. }
    intros Hloop. apply IH in Hloop as (Hsub & Hal & Hres). simpl in *.
    split; [by apply union_subseteq in Hsub as [_ ?]|]. split.
    { rewrite Hal. rewrite !alerts_emit_other; done. }
    destruct res as [e|out]; [done|].
    destruct Hres as (new & -> & Hnd & Hset & Hall).
    set (a := Monitor.set_matched_keywords (Monitor.new_article tk u article) (k :: ks)).
    assert (Hfresh : ∀ a', a' ∈ new → Monitor.url a' ≠ u).
    { intros a' Ha' Heq. rewrite Forall_forall in Hall.
      destruct (Hall a' Ha') as [Hn _]. apply Hn. rewrite Heq.
      apply elem_of_union_l. by apply elem_of_singleton. }
    exists (a :: new). split; [by rewrite <- app_assoc|]. split.
    { simpl. constructor; [|done].
      intros (a' & Heq & Ha')%list_elem_of_fmap. by apply (Hfresh a'). }
    split.
    { intros v. rewrite Hset. simpl. set_solver. }
    constructor.
    + split; [done|]. exists article. split; [left|]. split; [done|].
      unfold article_of. fold matched. rewrite Hm. split; [done|].
      split; [done|]. apply relevant_iff. fold matched. by rewrite Hm.
    + eapply Forall_impl; [exact Hall|].
      intros a' (Hn & r & Hr & Hrest). split; [set_solver|].
      exists r. split; [by right | done].
Qed.

End Fetcher.

Section Cycle.
Context `{Builtins}.
Variable self : Monitor.NewsMonitor.

Lemma extends_refl (P : string → Prop) (st : Monitor.state) : extends P st st.
Proof.
  split; [done|]. exists []. rewrite app_nil_r. split; [done|].
  split; [constructor|]. intros u Hu. by apply elem_of_nil in Hu.
Qed.

Lemma extends_quiet (P : string → Prop) (st st' : Monitor.state) :
  Monitor.processed_articles st ⊆ Monitor.processed_articles st' →
  alerts (Monitor.log st') = alerts (Monitor.log st) →
  extends P st st'.
Proof.
  intros Hsub Hal. split; [done|]. exists []. rewrite app_nil_r.
  split; [done|]. split; [constructor|]. intros u Hu. by apply elem_of_nil in Hu.
Qed.

Lemma extends_impl (P Q : string → Prop) (st st' : Monitor.state) :
  (∀ u, P u → Q u) → extends P st st' → extends Q st st'.
Proof.
  intros HPQ (Hsub & new & Hal & Hnd & Hnew). split; [done|].
  exists new. split; [done|]. split; [done|].
  intros u Hu. destruct (Hnew u Hu) as (? & ? & ?). auto.
Qed.

Lemma extends_trans (P : string → Prop) (st1 st2 st3 : Monitor.state) :
  extends P st1 st2 → extends P st2 st3 → extends P st1 st3.
Proof.
  intros (Hsub1 & new1 & Hal1 & Hnd1 & Hnew1) (Hsub2 & new2 & Hal2 & Hnd2 & Hnew2).
  split; [by etrans|]. exists (new1 ++ new2).
  split; [by rewrite Hal2, Hal1, app_assoc|]. split.
  - apply NoDup_app. split; [done|]. split; [|done].
    intros u Hu1 Hu2. destruct (Hnew1 u Hu1) as (_ & Hin & _).
    destruct (Hnew2 u Hu2) as (Hout & _). done.
  - intros u [Hu|Hu]%elem_of_app.
    + destruct (Hnew1 u Hu) as (? & ? & ?). auto.
    + destruct (Hnew2 u Hu) as (? & ? & ?). split; [|done].
      intros Hin. apply Hsub1 in Hin. done.
Qed.

Lemma alerts_block (ts : string) (a : Monitor.NewsArticle) :
  alerts (block_before_analysis ts a) = [Monitor.url a].
Proof.
  unfold block_before_analysis. rewrite alerts_app.
  destruct (truthy (Monitor.description a)); reflexivity.
Qed.

Lemma process_article_alerts (ts : string) (a : Monitor.NewsArticle)
    (st : Monitor.state) :
  Monitor.processed_articles (Monitor.process_article ts a st) =
  Monitor.processed_articles st ∧
  alerts (Monitor.log (Monitor.process_article ts a st)) =
  alerts (Monitor.log st) ++ [Monitor.url a].
Proof.
  rewrite process_article_log. split; [done|]. cbn [Monitor.log].
  rewrite !alerts_app, alerts_block. reflexivity.
Qed.

(** The inner loop writes one block per article, in order, and counts
    them. *)
Lemma process_all_spec (w : world) (c i : nat) (articles : list Monitor.NewsArticle) :
  ∀ (j : nat) (st : Monitor.state) (total : nat) st' total',
    Monitor.process_all w c i j articles st total = (st', total') →
    Monitor.processed_articles st' = Monitor.processed_articles st ∧
    alerts (Monitor.log st') = alerts (Monitor.log st) ++ map Monitor.url articles ∧
    total' = total + length articles.
Proof.
  induction articles as [|a rest IH]; intros j st total st' total'; simpl.
  - intros [= <- <-]. rewrite app_nil_r. auto with lia.
  - intros Hrest. apply IH in Hrest as (Hp & Hal & Hn).
    destruct (process_article_alerts (now w c i j) a st) as [Hp1 Hal1].
    rewrite Hp, Hp1, Hal, Hal1, <- app_assoc. split; [done|]. split; [done|]. lia.
Qed.

(** One fetch: the sink is not touched; the articles returned have
    distinct URLs, unseen before and seen after, and each was handed
    over by the API with a keyword in its text. *)
Lemma fetch_news_spec (w : world) (c i : nat) (tk : string)
    (st st' : Monitor.state) (out : list Monitor.NewsArticle) :
  Monitor.fetch_news_for_ticker self w c i tk st = (st', out) →
  Monitor.processed_articles st ⊆ Monitor.processed_articles st' ∧
  alerts (Monitor.log st') = alerts (Monitor.log st) ∧
  NoDup (map Monitor.url out) ∧
  ∀ a, a ∈ out →
       (Monitor.url a ∉ Monitor.processed_articles st) ∧
       Monitor.url a ∈ Monitor.processed_articles st' ∧
       ∃ r, delivered self w c i tk r ∧ raw_url r = Some (Monitor.url a) ∧
            a = article_of self tk (Monitor.url a) r ∧ relevant self r.
Proof.
  unfold Monitor.fetch_news_for_ticker, Monitor.fetch_body.
  destruct (api w c i _) as [e|resp] eqn:Hapi.
  - intros [= <- <-]. simpl. split; [done|].
    split; [by rewrite !alerts_emit_other|].
    split; [constructor|]. intros a Ha. by apply elem_of_nil in Ha.
  - destruct (Monitor.fetch_loop _ _ _ _ _) as [st1 res] eqn:Hloop.
    apply fetch_loop_spec in Hloop as (Hsub & Hal & Hres). simpl in *.
    rewrite alerts_emit_other in Hal by done.
    destruct res as [e|news]; intros [= <- <-]; simpl.
    + split; [done|]. split; [by rewrite alerts_emit_other|].
      split; [constructor|]. intros a Ha. by apply elem_of_nil in Ha.
    + destruct Hres as (new & -> & Hnd & Hset & Hall). simpl.
      split; [done|]. split; [done|]. split; [done|].
      intros a Ha. rewrite Forall_forall in Hall.
      destruct (Hall a Ha) as (Hfresh & r & Hr & Hurl & Heq & _ & Hrel).
      split; [done|]. split.
      { apply Hset. right. apply list_elem_of_fmap. eauto. }
      exists r. split; [by exists resp | done].
Qed.

(** One ticker of a cycle: the fetch and the blocks of what it
    returned. *)
Lemma ticker_extends (w : world) (c i : nat) (tk : string)
    (st st1 st2 : Monitor.state) (out : list Monitor.NewsArticle) (total total' : nat) :
  Monitor.fetch_news_for_ticker self w c i tk st = (st1, out) →
  Monitor.process_all w c i 0 out st1 total = (st2, total') →
  extends (origin self w c i [tk]) st st2.
Proof.
  intros (Hsub & Hal & Hnd & Hout)%fetch_news_spec (Hp & Hal2 & _)%process_all_spec.
  split; [by rewrite Hp|]. exists (map Monitor.url out).
  split; [by rewrite Hal2, Hal|]. split; [done|].
  intros u (a & -> & Ha)%list_elem_of_fmap.
  destruct (Hout a Ha) as (Hfresh & Hseen & r & Hr & Hurl & _ & Hrel).
  rewrite Hp. split; [done|]. split; [done|].
  exists 0, tk, r. by rewrite Nat.add_0_r.
Qed.

Lemma check_tickers_extends (w : world) (c : nat) (tks : list string) :
  ∀ (i : nat) (st : Monitor.state) (total : nat) st' total',
    Monitor.check_tickers self w c i tks st total = (st', total') →
    extends (origin self w c i tks) st st'.
Proof.
  induction tks as [|tk rest IH]; intros i st total st' total'; simpl.
  - intros [= <- <-]. apply extends_refl.
  - destruct (Monitor.fetch_news_for_ticker self w c i tk st) as [st1 out] eqn:Hfetch.
    destruct (Monitor.process_all w c i 0 out st1 total) as [st2 total2] eqn:Hall.
    intros Hrest. apply IH in Hrest.
    eapply extends_trans.
    + eapply extends_impl; [|exact (ticker_extends _ _ _ _ _ _ _ _ _ _ Hfetch Hall)].
      intros u (j & tk' & r & Hj & Hr & Hurl & Hrel).
      destruct j as [|j]; [|done]. injection Hj as <-.
      by exists 0, tk, r.
    + eapply extends_impl; [|exact Hrest].
      intros u (j & tk' & r & Hj & Hr & Hurl & Hrel).
      exists (S j), tk', r. split; [done|].
      by replace (i + S j) with (S i + j) by lia.
Qed.

(** One cycle. *)
Lemma check_news_extends (w : world) (c : nat) (st : Monitor.state) :
  extends (origin self w c 0 (Monitor.tickers self)) st
    (Monitor.check_news self w c st).
Proof.
  unfold Monitor.check_news.
  destruct (Monitor.check_tickers _ _ _ _ _ _ _) as [st1 total] eqn:Hloop.
  apply check_tickers_extends in Hloop.
  eapply extends_trans; [|eapply extends_trans; [exact Hloop|]].
  - apply extends_quiet; [done|]. simpl. by rewrite alerts_emit_other.
  - case_decide; apply extends_quiet; try done; simpl; by rewrite alerts_emit_other.
Qed.

Lemma cycles_extends (w : world) (n : nat) :
  ∀ (c : nat) (st : Monitor.state),
    extends (fun u => ∃ c', c ≤ c' < c + n ∧
                            origin self w c' 0 (Monitor.tickers self) u)
      st (Monitor.cycles self w c n st).
Proof.
  induction n as [|n IH]; intros c st; simpl; [apply extends_refl|].
  eapply extends_trans.
  - eapply extends_impl; [|apply check_news_extends].
    intros u Hu. exists c. split; [lia | exact Hu].
  - eapply extends_impl; [|apply IH].
    intros u (c' & Hc' & Hu). exists c'. split; [lia | done].
Qed.

(** A whole run, from the banner to the interrupt. *)
Lemma start_monitoring_extends (w : world) (scheduled : nat) (st : Monitor.state) :
  extends (fun u => ∃ c, c ≤ scheduled ∧
                         origin self w c 0 (Monitor.tickers self) u)
    st (Monitor.start_monitoring self w scheduled st).
Proof.
  unfold Monitor.start_monitoring.
  set (st0 := Monitor.logger INFO (rule +:+ newline) _).
  assert (extends (fun u => ∃ c, c ≤ scheduled ∧
                    origin self w c 0 (Monitor.tickers self) u) st st0) as H0.
  { apply extends_quiet; [done|]. subst st0. simpl.
    by rewrite !alerts_emit_other. }
  eapply extends_trans; [exact H0|].
  eapply extends_trans.
  { eapply extends_impl; [|apply (cycles_extends w (S scheduled) 0 st0)].
    intros u (c & Hc & Hu). exists c. split; [lia | done]. }
  apply extends_quiet; [done|]. simpl. by rewrite !alerts_emit_other.
Qed.

End Cycle.

Section FetchLoop.
Context `{Builtins}.
Variable self : Monitor.NewsMonitor.

(** The loop over [pre ++ post] is the loop over [pre], then, unless it
    raised, the loop over [post]. *)
Lemma fetch_loop_app (tk : string) (pre post : list raw_article) :
  ∀ (st : Monitor.state) (acc : list Monitor.NewsArticle),
    Monitor.fetch_loop self tk (pre ++ post) st acc =
    match Monitor.fetch_loop self tk pre st acc with
    | (st1, inr acc1) => Monitor.fetch_loop self tk post st1 acc1
    | (st1, inl e) => (st1, inl e)
    end.
Proof.
  induction pre as [|r pre IH]; intros st acc; simpl; [done|].
  destruct (raw_url r) as [u|]; [|done].
  case_bool_decide; [apply IH|].
  destruct (Shared._extract_matched_keywords _ _); apply IH.
Qed.

(** Every URL the loop marks belongs to one of its articles that has a
    keyword, whether the loop ends or raises. *)
Lemma fetch_loop_marks (tk : string) (arts : list raw_article) :
  ∀ (st : Monitor.state) (acc : list Monitor.NewsArticle) st' res,
    Monitor.fetch_loop self tk arts st acc = (st', res) →
    ∀ u, u ∈ Monitor.processed_articles st' →
         u ∈ Monitor.processed_articles st ∨
         ∃ r, r ∈ arts ∧ raw_url r = Some u ∧ relevant self r.
Proof.
  induction arts as [|r rest IH]; intros st acc st' res; simpl.
  - intros [= <- <-] u Hu. by left.
  - destruct (raw_url r) as [v|] eqn:Hurl; [|intros [= <- <-] u Hu; by left].
    assert (Hweak : ∀ u, (∃ r', r' ∈ rest ∧ raw_url r' = Some u ∧ relevant self r') →
                         ∃ r', r' ∈ r :: rest ∧ raw_url r' = Some u ∧ relevant self r').
    { intros u (r' & Hr' & Hrest). exists r'. split; [by right | done]. }
    case_bool_decide.
    { intros Hloop u Hu. destruct (IH _ _ _ _ Hloop u Hu); auto. }
    destruct (Shared._extract_matched_keywords _ _) as [|k ks] eqn:Hm.
    { intros Hloop u Hu. destruct (IH _ _ _ _ Hloop u Hu); auto. }
    intros Hloop u Hu. destruct (IH _ _ _ _ Hloop u Hu) as [Hin|Hin]; [|auto].
    simpl in Hin. apply elem_of_union in Hin as [->%elem_of_singleton|Hin]; [|by left].
    right. exists r. split; [left|]. split; [done|].
    apply relevant_iff. by rewrite Hm.
Qed.

(** When every article carries a URL the loop ends, and every article
    with a keyword is then seen. *)
Lemma fetch_loop_complete (tk : string) (arts : list raw_article) :
  Forall (fun r => is_Some (raw_url r)) arts →
  ∀ (st : Monitor.state) (acc : list Monitor.NewsArticle),
    ∃ st' out,
      Monitor.fetch_loop self tk arts st acc = (st', inr out) ∧
      ∀ r u, r ∈ arts → raw_url r = Some u → relevant self r →
             u ∈ Monitor.processed_articles st'.
Proof.
  induction 1 as [|r rest [v Hurl] _ IH]; intros st acc; simpl.
  - eexists _, _. split; [done|]. intros r u Hr. by apply elem_of_nil in Hr.
  - rewrite Hurl.
    assert (Hkeep : ∀ st1 acc1 st' out,
              Monitor.processed_articles st ⊆ Monitor.processed_articles st1 →
              (relevant self r → v ∈ Monitor.processed_articles st1) →
              Monitor.fetch_loop self tk rest st1 acc1 = (st', inr out) →
              (∀ r' u, r' ∈ rest → raw_url r' = Some u → relevant self r' →
                       u ∈ Monitor.processed_articles st') →
              ∀ r' u, r' ∈ r :: rest → raw_url r' = Some u → relevant self r' →
                      u ∈ Monitor.processed_articles st').
    { intros st1 acc1 st' out Hsub Hv Hloop Hrest r' u [->|Hr']%elem_of_cons Hu Hrel.
      - rewrite Hurl in Hu. injection Hu as <-.
        apply fetch_loop_spec in Hloop as (Hsub' & _). apply Hsub'. auto.
      - by apply (Hrest r' u). }
    case_bool_decide as Hseen.
    { destruct (IH st acc) as (st' & out & Hloop & Hmarks).
      exists st', out. split; [done|].
      eapply Hkeep; [| |exact Hloop|exact Hmarks]; [done|by intros _]. }
    destruct (Shared._extract_matched_keywords _ _) as [|k ks] eqn:Hm.
    { destruct (IH (Monitor.logger INFO
                      ("Matched keywords: " +:+ format_list [])
                      (Monitor.logger INFO
                         ("Article: " +:+
                          format (Monitor.title (Monitor.new_article tk v r))) st)) acc)
        as (st' & out & Hloop & Hmarks).
      exists st', out. split; [done|].
      eapply Hkeep; [| |exact Hloop|exact Hmarks]; [done|].
      intros Hrel. apply relevant_iff in Hrel. by rewrite Hm in Hrel. }
    match goal with
    | |- ∃ st' out, Monitor.fetch_loop self tk rest ?s ?a = _ ∧ _ =>
        destruct (IH s a) as (st' & out & Hloop & Hmarks);
        exists st', out; split; [done|];
        eapply (Hkeep s a); [| |exact Hloop|exact Hmarks]
    end.
    + simpl. apply union_subseteq_r.
    + intros _. simpl. apply elem_of_union_l. by apply elem_of_singleton.
Qed.

End FetchLoop.

(** ** Runs over well-formed answers *)

Section WellFormed.
Context `{Builtins}.
Variable self : Monitor.NewsMonitor.
Variable w : world.
Hypothesis Hwf : well_formed self w.

Lemma extends_alerts_kept (P : string → Prop) (st st' : Monitor.state) (u : string) :
  extends P st st' → u ∈ alerts (Monitor.log st) → u ∈ alerts (Monitor.log st').
Proof.
  intros (_ & new & -> & _) Hu. apply elem_of_app. by left.
Qed.

(** One ticker: afterwards every seen URL has its alert, and so has every
    URL that was handed over with a keyword. *)
Lemma ticker_settled (c i : nat) (tk : string) (st st1 st2 : Monitor.state)
    (out : list Monitor.NewsArticle) (total total' : nat) :
  Monitor.fetch_news_for_ticker self w c i tk st = (st1, out) →
  Monitor.process_all w c i 0 out st1 total = (st2, total') →
  settled st →
  settled st2 ∧
  ∀ r u, delivered self w c i tk r → raw_url r = Some u → relevant self r →
         u ∈ alerts (Monitor.log st2).
Proof.
  intros Hfetch (Hp & Hal & _)%process_all_spec Hst.
  assert (∀ r, delivered self w c i tk r → is_Some (raw_url r)) as Hurls
    by (intros r; apply Hwf).
  revert Hfetch Hurls. unfold Monitor.fetch_news_for_ticker, Monitor.fetch_body, delivered.
  destruct (api w c i _) as [e|resp] eqn:Hapi.
  - intros [= <- <-] _. simpl in *. rewrite app_nil_r in Hal. split.
    + intros u Hu. rewrite Hal, alerts_emit_other by done. rewrite Hp in Hu. by apply Hst.
    + by intros r u (resp & [=] & _).
  - intros Hfetch Hurls.
    assert (Forall (fun r => is_Some (raw_url r)) (default [] (resp_articles resp))) as Hall.
    { apply Forall_forall. intros r Hr. apply Hurls. by exists resp. }
    match type of Hfetch with
    | context [Monitor.fetch_loop self tk _ ?s []] =>
        destruct (fetch_loop_complete self tk _ Hall s []) as (st' & news & Hloop & Hmarks)
    end.
    rewrite Hloop in Hfetch. injection Hfetch as <- <-.
    apply fetch_loop_spec in Hloop as (_ & Hal1 & new & -> & _ & Hset & _).
    simpl in Hal1, Hal. rewrite alerts_emit_other in Hal1 by done.
    assert (settled st2) as Hst2.
    { intros u Hu. rewrite Hp in Hu. apply Hset in Hu as [Hu|Hu]; rewrite Hal, Hal1.
      - apply elem_of_app. left. by apply Hst.
      - apply elem_of_app. by right. }
    split; [done|].
    intros r u (resp' & Hresp & Hr) Hurl Hrel. apply Hst2. rewrite Hp.
    replace resp' with resp in Hr by congruence. eauto.
Qed.

Lemma check_tickers_settled (c : nat) (tks : list string) :
  ∀ (i : nat) (st : Monitor.state) (total : nat) st' total',
    Monitor.check_tickers self w c i tks st total = (st', total') →
    settled st →
    settled st' ∧
    ∀ j tk r u, tks !! j = Some tk → delivered self w c (i + j) tk r →
                raw_url r = Some u → relevant self r →
                u ∈ alerts (Monitor.log st').
Proof.
  induction tks as [|tk rest IH]; intros i st total st' total'; simpl.
  - intros [= <- <-] Hst. split; [done|]. intros j tk r u Hj. done.
  - destruct (Monitor.fetch_news_for_ticker self w c i tk st) as [st1 out] eqn:Hfetch.
    destruct (Monitor.process_all w c i 0 out st1 total) as [st2 total2] eqn:Hall.
    intros Hrest Hst.
    destruct (ticker_settled _ _ _ _ _ _ _ _ _ Hfetch Hall Hst) as [Hst2 Hnow].
    pose proof (check_tickers_extends self _ _ _ _ _ _ _ _ Hrest) as Hext.
    destruct (IH _ _ _ _ _ Hrest Hst2) as [Hst' Hlater].
    split; [done|].
    intros [|j] tk' r u Hj Hr Hurl Hrel.
    + injection Hj as <-. rewrite Nat.add_0_r in Hr.
      eapply extends_alerts_kept; [exact Hext|]. eauto.
    + apply (Hlater j tk' r u); [done| |done|done].
      by replace (S i + j) with (i + S j) by lia.
Qed.

Lemma check_news_settled (c : nat) (st : Monitor.state) :
  settled st →
  settled (Monitor.check_news self w c st) ∧
  ∀ i tk r u, Monitor.tickers self !! i = Some tk → delivered self w c i tk r →
              raw_url r = Some u → relevant self r →
              u ∈ alerts (Monitor.log (Monitor.check_news self w c st)).
Proof.
  intros Hst. unfold Monitor.check_news.
  destruct (Monitor.check_tickers _ _ _ _ _ _ _) as [st1 total] eqn:Hloop.
  apply check_tickers_settled in Hloop as [Hst1 Hfound].
  - case_decide; (split; [intros u Hu|intros i tk r u Hi Hr Hurl Hrel]);
      simpl in *; rewrite alerts_emit_other by done; eauto.
  - intros u Hu. simpl in *. rewrite alerts_emit_other by done. by apply Hst.
Qed.

Lemma cycles_settled (n : nat) :
  ∀ (c : nat) (st : Monitor.state),
    settled st →
    settled (Monitor.cycles self w c n st) ∧
    ∀ c' i tk r u, c ≤ c' < c + n → Monitor.tickers self !! i = Some tk →
                   delivered self w c' i tk r → raw_url r = Some u → relevant self r →
                   u ∈ alerts (Monitor.log (Monitor.cycles self w c n st)).
Proof.
  induction n as [|n IH]; intros c st Hst; simpl.
  - split; [done|]. intros; lia.
  - destruct (check_news_settled c st Hst) as [Hst1 Hnow].
    destruct (IH (S c) _ Hst1) as [Hst' Hlater].
    split; [done|].
    intros c' i tk r u Hc' Hi Hr Hurl Hrel.
    destruct (decide (c' = c)) as [->|Hne].
    + eapply extends_alerts_kept; [apply cycles_extends|]. eauto.
    + apply (Hlater c' i tk r u); [lia|done..].
Qed.

(** X16. With well-formed answers, an article that the API hands over
    with a keyword in some cycle of the run gets exactly one alert. *)
Lemma well_formed_alerted_once (scheduled c i : nat) (tk : string)
    (r : raw_article) (u : string) :
  c ≤ scheduled → Monitor.tickers self !! i = Some tk →
  delivered self w c i tk r → raw_url r = Some u → relevant self r →
  let st := Monitor.start_monitoring self w scheduled (Monitor.mkState ∅ []) in
  u ∈ alerts (Monitor.log st) ∧ NoDup (alerts (Monitor.log st)).
Proof.
  intros Hc Hi Hr Hurl Hrel st.
  destruct (start_monitoring_extends self w scheduled (Monitor.mkState ∅ []))
    as (_ & new & Hal & Hnd & _).
  split; [|subst st; rewrite Hal; exact Hnd].
  subst st. unfold Monitor.start_monitoring.
  match goal with
  | |- context [Monitor.check_news self w 0 ?s] =>
      destruct (cycles_settled (S scheduled) 0 s) as [_ Hfound]
  end.
  { intros v Hv. simpl in Hv. by apply not_elem_of_empty in Hv. }
  simpl. rewrite !alerts_emit_other by done.
  apply (Hfound c i tk r u); [lia|done..].
Qed.

End WellFormed.

(** ** The poll cycle of stock_news_monitor.py *)

Section PollCycle.
Context `{Builtins}.
Variable self : Monitor.NewsMonitor.

Local Abbreviation query tk :=
  (Shared._build_search_query (Monitor.ticker_to_company self)
     (Monitor.keywords self) tk).

(** A URL that is seen gets no alert from then on. *)
Lemma extends_seen (P : string → Prop) (st st' : Monitor.state) (u : string) :
  extends P st st' → u ∈ Monitor.processed_articles st →
  ∃ new, alerts (Monitor.log st') = alerts (Monitor.log st) ++ new ∧ u ∉ new.
Proof.
  intros (_ & new & Hal & _ & Hnew) Hseen. exists new. split; [done|].
  intros Hu. by destruct (Hnew u Hu) as (Hfresh & _).
Qed.

(** X15. In a run that starts with an empty seen set and an empty log, no
    URL is alerted twice, and every alert is for an article that the
    API handed over in one of the cycles, for one of the tickers, with
    a configured keyword in its text. *)
Lemma alerts_once_and_relevant (w : world) (scheduled : nat) :
  let st := Monitor.start_monitoring self w scheduled (Monitor.mkState ∅ []) in
  NoDup (alerts (Monitor.log st)) ∧
  ∀ u, u ∈ alerts (Monitor.log st) →
       ∃ c i tk r, c ≤ scheduled ∧ Monitor.tickers self !! i = Some tk ∧
                   delivered self w c i tk r ∧ raw_url r = Some u ∧ relevant self r.
Proof.
  intros st. subst st.
  destruct (start_monitoring_extends self w scheduled (Monitor.mkState ∅ []))
    as (_ & new & Hal & Hnd & Hnew).
  rewrite Hal. split; [exact Hnd|].
  intros u Hu. destruct (Hnew u Hu) as (_ & _ & c & Hc & j & tk & r & Hj & Hr & Hrest).
  by exists c, j, tk, r.
Qed.

(** C3. When the call of the API, or a step of the loop over its answer,
    raises, [fetch_news_for_ticker] logs the error and returns the empty
    list, and [check_news] goes on with the next ticker of the list: the
    rest of the cycle is the cycle over the remaining tickers. *)
Theorem fetch_failure_contained (w : world) (c i : nat) (tk : string)
    (st st1 : Monitor.state) (e : exn) :
  (api w c i (query tk) = Raise e →
   Monitor.fetch_body self w c i tk st = (st, inl e))
  ∧ (Monitor.fetch_body self w c i tk st = (st1, inl e) →
     let st2 :=
       Monitor.logger ERROR
         ("Error fetching news for " +:+ tk +:+ ": " +:+ exn_text e) st1 in
     Monitor.fetch_news_for_ticker self w c i tk st = (st2, [])
     ∧ Monitor.log st2 =
       Monitor.log st1 ++
       [(ERROR, "Error fetching news for " +:+ tk +:+ ": " +:+ exn_text e)]
     ∧ ∀ rest total,
         Monitor.check_tickers self w c i (tk :: rest) st total =
         Monitor.check_tickers self w c (S i) rest st2 total).
Proof.
  split.
  - intros Hapi. unfold Monitor.fetch_body. rewrite Hapi. by destruct st.
  - intros Hbody st2.
    assert (Monitor.fetch_news_for_ticker self w c i tk st = (st2, [])) as Hfetch.
    { unfold Monitor.fetch_news_for_ticker. by rewrite Hbody. }
    split; [done|]. split; [done|].
    intros rest total. simpl. by rewrite Hfetch.
Qed.

(** C6. The text that is matched is the title, one space and the
    description.  An article without any configured keyword in that text
    leaves the seen set, the returned list and the sink as they are; a
    fetch that hands over a URL only on such articles does not mark it
    and returns no article with it; and an unseen URL that comes with a
    keyword is returned and marked. *)
Theorem unmatched_not_seen (tk : string) :
  (∀ article rest st acc u,
     raw_url article = Some u → ¬ relevant self article →
     ∃ st1,
       Monitor.fetch_loop self tk (article :: rest) st acc =
       Monitor.fetch_loop self tk rest st1 acc ∧
       Monitor.processed_articles st1 = Monitor.processed_articles st ∧
       alerts (Monitor.log st1) = alerts (Monitor.log st))
  ∧ (∀ w c i st st' out u,
       Monitor.fetch_news_for_ticker self w c i tk st = (st', out) →
       u ∉ Monitor.processed_articles st →
       (∀ r, delivered self w c i tk r → raw_url r = Some u → ¬ relevant self r) →
       (u ∉ Monitor.processed_articles st') ∧
       (∀ a, a ∈ out → Monitor.url a ≠ u) ∧
       alerts (Monitor.log st') = alerts (Monitor.log st))
  ∧ (∀ article st u,
       raw_url article = Some u → relevant self article →
       u ∉ Monitor.processed_articles st →
       ∃ st1,
         Monitor.fetch_loop self tk [article] st [] =
         (st1, inr [article_of self tk u article]) ∧
         u ∈ Monitor.processed_articles st1)
  ∧ (∀ title description u published source,
       Monitor.article_text
         (RawArticle (Some (Str title)) u published (Some (Str description)) source) =
       title +:+ " " +:+ description).
Proof.
  split; [|split; [|split; [|done]]].
  - intros article rest st acc u Hurl Hno. simpl. rewrite Hurl.
    case_bool_decide; [by exists st|].
    apply (not_iff_compat (relevant_iff self article)) in Hno.
    destruct (Shared._extract_matched_keywords _ _) as [|k ks] eqn:Hm.
    + eexists. split; [reflexivity|]. split; [done|]. simpl.
      by rewrite !alerts_emit_other.
    + exfalso. apply Hno. by intros [=].
  - intros w c i st st' out u Hfetch Hfresh Hno.
    pose proof (fetch_news_spec self _ _ _ _ _ _ _ Hfetch) as (_ & Hal & _ & Hout).
    split; [|split; [|done]].
    + intros Hin. revert Hfetch.
      unfold Monitor.fetch_news_for_ticker, Monitor.fetch_body.
      destruct (api w c i _) as [e|resp] eqn:Hapi.
      { intros [= <- <-]. by apply Hfresh. }
      destruct (Monitor.fetch_loop _ _ _ _ _) as [st1 res] eqn:Hloop.
      intros Hst'.
      assert (Monitor.processed_articles st' = Monitor.processed_articles st1) as Hp.
      { destruct res; by injection Hst' as <- <-. }
      rewrite Hp in Hin.
      destruct (fetch_loop_marks self _ _ _ _ _ _ Hloop u Hin)
        as [Hold|(r & Hr & Hurl & Hrel)]; [by apply Hfresh|].
      apply (Hno r); [by exists resp | done | done].
    + intros a Ha <-. destruct (Hout a Ha) as (_ & _ & r & Hr & Hurl & _ & Hrel).
      by apply (Hno r).
  - intros article st u Hurl Hrel Hfresh. simpl. rewrite Hurl.
    rewrite bool_decide_eq_false_2 by done.
    apply relevant_iff in Hrel. unfold article_of.
    destruct (Shared._extract_matched_keywords _ _) as [|k ks] eqn:Hm; [done|].
    eexists. split; [reflexivity|]. simpl.
    apply elem_of_union_l. by apply elem_of_singleton.
Qed.

(** C10. When an article without the [url] key follows articles that all
    have one, the fetch returns the empty list and writes nothing to the
    sink, yet the URL of every article before it that has a keyword is in
    the seen set; and from any state in which a URL is seen, the rest of a
    cycle and any number of cycles keep it seen and give it no alert. *)
Theorem marked_then_lost (w : world) (c i : nat) (tk : string) (st : Monitor.state)
    (pre post : list raw_article) (bad a : raw_article) (u : string) :
  api w c i (query tk) = Return (Response (Some (pre ++ bad :: post))) →
  Forall (fun r => is_Some (raw_url r)) pre →
  raw_url bad = None →
  a ∈ pre → raw_url a = Some u → relevant self a →
  ∃ st',
    Monitor.fetch_news_for_ticker self w c i tk st = (st', [])
    ∧ u ∈ Monitor.processed_articles st'
    ∧ alerts (Monitor.log st') = alerts (Monitor.log st)
    ∧ (ERROR, "Error fetching news for " +:+ tk +:+ ": " +:+ exn_text (KeyError "url"))
      ∈ Monitor.log st'
    ∧ ∀ st'', u ∈ Monitor.processed_articles st'' →
        (∀ w' c' i' tks total,
           let st3 := (Monitor.check_tickers self w' c' i' tks st'' total).1 in
           u ∈ Monitor.processed_articles st3 ∧
           ∃ new, alerts (Monitor.log st3) = alerts (Monitor.log st'') ++ new ∧ u ∉ new)
        ∧ (∀ w' c' n,
             let st3 := Monitor.cycles self w' c' n st'' in
             u ∈ Monitor.processed_articles st3 ∧
             ∃ new, alerts (Monitor.log st3) = alerts (Monitor.log st'') ++ new ∧ u ∉ new).
Proof.
  intros Hapi Hpre Hbad Ha Hurl Hrel.
  set (st0 := Monitor.logger INFO
                ("Found " +:+ pretty (length (pre ++ bad :: post)) +:+
                 " total articles for " +:+ tk) st).
  destruct (fetch_loop_complete self tk pre Hpre st0 [])
    as (st1 & out & Hloop & Hmarks).
  assert (Monitor.fetch_body self w c i tk st = (st1, inl (KeyError "url"))) as Hbody.
  { unfold Monitor.fetch_body. rewrite Hapi. simpl default.
    change (Monitor.logger DEBUG _ st) with
      (Monitor.mkState (Monitor.processed_articles st) (Monitor.log st)).
    replace (Monitor.mkState (Monitor.processed_articles st) (Monitor.log st))
      with st by by destruct st.
    fold st0. rewrite fetch_loop_app, Hloop. simpl. by rewrite Hbad. }
  destruct (fetch_failure_contained w c i tk st st1 (KeyError "url"))
    as (_ & Hhandler).
  destruct (Hhandler Hbody) as (Hfetch & Hlog & _).
  eexists. split; [exact Hfetch|].
  assert (alerts (Monitor.log st1) = alerts (Monitor.log st)) as Hal.
  { apply fetch_loop_spec in Hloop as (_ & -> & _). subst st0. simpl.
    by rewrite alerts_emit_other. }
  assert (u ∈ Monitor.processed_articles st1) as Hseen by eauto.
  split; [done|]. split.
  { simpl. by rewrite alerts_emit_other. }
  split.
  { rewrite Hlog. apply elem_of_app. right. left. }
  intros st'' Hseen''. split.
  - intros w' c' i' tks total st3. subst st3.
    destruct (Monitor.check_tickers self w' c' i' tks st'' total) as [st3 total3] eqn:Hrest.
    apply check_tickers_extends in Hrest. simpl.
    split; [by apply (proj1 Hrest)|]. by eapply extends_seen.
  - intros w' c' n st3. subst st3.
    pose proof (cycles_extends self w' n c' st'') as Hext.
    split; [by apply (proj1 Hext)|]. by eapply extends_seen.
Qed.

End PollCycle.

(** ** The poll cycle of backtest.py *)

Section BacktestLoop.
Context `{Builtins}.
Variable self : Backtest.NewsMonitor.

Local Abbreviation refused := (unexpected_keyword "NewsArticle" "source").

(** The loop either skips every article as seen, or raises at the first
    article that is not skipped; it changes nothing. *)
Lemma backtest_fetch_loop_cases (tk : string) (arts : list raw_article)
    (acc : list Backtest.object) (st : Backtest.state) :
  (Backtest.fetch_loop self tk arts acc st = (st, inr acc) ∧
   Forall (fun r => ∃ u, raw_url r = Some u ∧ u ∈ Backtest.processed_articles st) arts)
  ∨ (∃ e, Backtest.fetch_loop self tk arts acc st = (st, inl e) ∧
          (e = KeyError "url" ∨ e = refused)).
Proof.
  induction arts as [|r rest IH]; simpl.
  - left. split; [done | constructor].
  - destruct (raw_url r) as [u|] eqn:Hurl; [|right; eauto].
    unfold mbind, Backtest.M_bind, Backtest.seen.
    case_bool_decide as Hseen.
    + destruct IH as [[Hloop Hall]|Hraise]; [left|by right].
      split; [done|]. constructor; eauto.
    + right. exists refused. split; [|by right]. reflexivity.
Qed.

(** A fetch always returns the empty list and leaves the seen set and the
    file alone. *)
Lemma backtest_fetch_empty (w : world) (c i : nat) (tk : string) (st : Backtest.state) :
  ∃ st', Backtest.fetch_news_for_ticker self w c i tk st = (st', inr []) ∧
         Backtest.processed_articles st' = Backtest.processed_articles st ∧
         Backtest.file st' = Backtest.file st.
Proof.
  unfold Backtest.fetch_news_for_ticker, Backtest.try_except, Backtest.fetch_body.
  unfold mbind, Backtest.M_bind. simpl.
  destruct (api w c i _) as [e|resp]; simpl; [eauto|].
  match goal with
  | |- context [Backtest.fetch_loop self tk ?arts [] ?s] =>
      destruct (backtest_fetch_loop_cases tk arts [] s) as [[-> _]|(e & -> & _)]
  end; simpl; eauto.
Qed.

Lemma backtest_check_tickers_quiet (w : world) (c : nat) (tks : list string) :
  ∀ (i total : nat) (st : Backtest.state),
    ∃ st', Backtest.check_tickers self w c i tks total st = (st', inr total) ∧
           Backtest.processed_articles st' = Backtest.processed_articles st ∧
           Backtest.file st' = Backtest.file st.
Proof.
  induction tks as [|tk rest IH]; intros i total st; simpl; [eauto|].
  unfold mbind, Backtest.M_bind.
  destruct (backtest_fetch_empty w c i tk st) as (st1 & -> & Hp1 & Hf1). simpl.
  destruct (IH (S i) total st1) as (st2 & -> & Hp2 & Hf2).
  exists st2. by rewrite Hp2, Hf2.
Qed.

Lemma backtest_check_news_quiet (w : world) (c : nat) (st : Backtest.state) :
  ∃ st', Backtest.check_news self w c st = (st', inr tt) ∧
         Backtest.processed_articles st' = Backtest.processed_articles st ∧
         Backtest.file st' = Backtest.file st.
Proof.
  unfold Backtest.check_news, mbind, Backtest.M_bind. simpl.
  match goal with
  | |- context [Backtest.check_tickers self w c 0 ?tks 0 ?s] =>
      destruct (backtest_check_tickers_quiet w c tks 0 0 s) as (st1 & -> & Hp & Hf)
  end.
  simpl. eexists. split; [reflexivity|]. by rewrite Hp, Hf.
Qed.

Lemma backtest_cycles_quiet (w : world) (n : nat) :
  ∀ (c : nat) (st : Backtest.state),
    ∃ st', Backtest.cycles self w c n st = (st', inr tt) ∧
           Backtest.processed_articles st' = Backtest.processed_articles st ∧
           Backtest.file st' = Backtest.file st.
Proof.
  induction n as [|n IH]; intros c st; simpl; [eauto|].
  unfold mbind, Backtest.M_bind.
  destruct (backtest_check_news_quiet w c st) as (st1 & -> & Hp1 & Hf1).
  destruct (IH (S c) st1) as (st2 & -> & Hp2 & Hf2).
  exists st2. by rewrite Hp2, Hf2.
Qed.

(** A whole run ends normally with nothing but the banner in the article
    file and an empty seen set. *)
Lemma backtest_run_silent (w : world) (scheduled : nat) :
  ∃ st, Backtest.start_monitoring self w scheduled (Backtest.mkState ∅ [] []) =
        (st, inr tt) ∧
        file_alerts (Backtest.file st) = [] ∧
        Backtest.processed_articles st = ∅.
Proof.
  unfold Backtest.start_monitoring, mbind, Backtest.M_bind. simpl.
  match goal with
  | |- context [Backtest.check_news self w 0 ?s] =>
      destruct (backtest_check_news_quiet w 0 s) as (st1 & -> & Hp1 & Hf1)
  end.
  destruct (backtest_cycles_quiet w scheduled 1 st1) as (st2 & -> & Hp2 & Hf2).
  simpl. eexists. split; [reflexivity|]. simpl.
  rewrite Hp2, Hp1, Hf2, Hf1. split; reflexivity.
Qed.

End BacktestLoop.

Section BacktestTheorems.
Context `{Builtins}.
Variable self : Backtest.NewsMonitor.

Local Abbreviation refused := (unexpected_keyword "NewsArticle" "source").
Local Abbreviation query tk :=
  (Shared._build_search_query (Backtest.ticker_to_company self)
     (Backtest.keywords self) tk).

(** C2. In [backtest.py] the constructor call of the loop is refused with
    a TypeError for the undeclared keyword [source]; so the loop raises at
    an article whose URL is not seen, a fetch that was handed such an
    article logs an error and returns the empty list, and a cycle writes
    nothing to the article file and marks nothing. *)
Theorem unseen_article_refused (tk : string) :
  exn_class refused = "TypeError"
  ∧ (∀ u article,
       Backtest.NewsArticle (Backtest.call_keywords tk u article) = inl refused)
  ∧ (∀ article rest acc st u,
       raw_url article = Some u → u ∉ Backtest.processed_articles st →
       Backtest.fetch_loop self tk (article :: rest) acc st = (st, inl refused))
  ∧ (∀ w c i st resp r u,
       api w c i (query tk) = Return resp →
       r ∈ default [] (resp_articles resp) →
       raw_url r = Some u → u ∉ Backtest.processed_articles st →
       ∃ e st',
         Backtest.fetch_news_for_ticker self w c i tk st = (st', inr []) ∧
         (ERROR, "Error fetching news for " +:+ tk +:+ ": " +:+ exn_text e)
         ∈ Backtest.log st' ∧
         Backtest.processed_articles st' = Backtest.processed_articles st ∧
         Backtest.file st' = Backtest.file st)
  ∧ (∀ w c st,
       ∃ st', Backtest.check_news self w c st = (st', inr tt) ∧
              Backtest.processed_articles st' = Backtest.processed_articles st ∧
              Backtest.file st' = Backtest.file st).
Proof.
  split; [reflexivity|]. split; [intros; reflexivity|]. split; [|split].
  - intros article rest acc st u Hurl Hfresh. simpl. rewrite Hurl.
    unfold mbind, Backtest.M_bind, Backtest.seen.
    by rewrite bool_decide_eq_false_2.
  - intros w c i st resp r u Hapi Hr Hurl Hfresh.
    unfold Backtest.fetch_news_for_ticker, Backtest.try_except, Backtest.fetch_body.
    unfold mbind, Backtest.M_bind. simpl. rewrite Hapi. simpl.
    match goal with
    | |- context [Backtest.fetch_loop self tk ?arts [] ?s] =>
        destruct (backtest_fetch_loop_cases self tk arts [] s)
          as [[_ Hall]|(e & -> & _)]
    end.
    + exfalso. rewrite Forall_forall in Hall.
      destruct (Hall r Hr) as (v & Hv & Hseen). simpl in Hseen. congruence.
    + exists e. eexists. split; [reflexivity|]. simpl.
      split; [|done]. apply elem_of_app. right. left.
  - intros w c st. apply backtest_check_news_quiet.
Qed.

End BacktestTheorems.

(** ** Config *)

Section Config.
Context `{Builtins}.

(** C7, amended. The configuration that [main] of [backtest.py] builds
    has the upper-cased positional arguments as its tickers, at least one
    of them, each left unchanged by another upper-casing, and the monitor
    that runs carries this configuration; the monitor of
    [stock_news_monitor.py] has the keys of its fixed mapping as tickers,
    the single entry Brasil, whatever its configuration. *)
Theorem tickers_of_config :
  (∀ positional api_key interval a,
     Backtest.parse_args positional api_key interval = Some a →
     Backtest.tickers (Backtest.main_config a) = map upper positional
     ∧ Backtest.tickers (Backtest.main_config a) ≠ []
     ∧ ((∀ s, upper (upper s) = upper s) →
        Forall (fun t => upper t = t) (Backtest.tickers (Backtest.main_config a)))
     ∧ (∀ w scheduled monitor run,
          Backtest.main positional api_key interval w scheduled = Some (monitor, run) →
          Backtest.config monitor = Backtest.main_config a))
  ∧ (∀ config, Monitor.tickers (Monitor.__init__ config).1 = ["Brasil"]).
Proof.
  split; [|reflexivity].
  intros positional api_key interval a Hparse.
  assert (Backtest.args_tickers a = positional ∧ positional ≠ []) as [Ha Hne].
  { unfold Backtest.parse_args in Hparse.
    destruct positional as [|t ts]; [done|].
    destruct api_key; [|done]. by injection Hparse as <-. }
  unfold Backtest.main_config. simpl. rewrite Ha.
  split; [done|]. split; [by destruct positional|]. split.
  - intros Hidem. apply Forall_forall. intros t (s & -> & _)%list_elem_of_fmap.
    apply Hidem.
  - intros w scheduled monitor run. unfold Backtest.main. rewrite Hparse. simpl.
    intros [= <- _]. unfold Backtest.main_config. by rewrite Ha.
Qed.

End Config.

(** ** The scenarios, run on ASCII text *)

Lemma upper_char_idempotent (c : ascii) :
  AsciiText.upper_char (AsciiText.upper_char c) = AsciiText.upper_char c.
Proof. destruct c as [[] [] [] [] [] [] [] []]; reflexivity. Qed.

Lemma ascii_upper_idempotent (s : string) :
  @upper AsciiText.builtins (@upper AsciiText.builtins s) = @upper AsciiText.builtins s.
Proof.
  induction s as [|c s IH]; [done|]. simpl in *.
  by rewrite upper_char_idempotent, IH.
Qed.

Section Scenarios.
Import AsciiText.

Lemma harvest_relevant : relevant soy harvest.
Proof. apply relevant_iff. vm_compute. discriminate. Qed.

Lemma football_irrelevant : ¬ relevant soy football.
Proof. intros Hrel. apply relevant_iff in Hrel. apply Hrel. vm_compute. reflexivity. Qed.

(** The keywords come out in the order of the configured list, each once,
    whatever their order and number in the text. *)
Example extract_in_list_order :
  Shared._extract_matched_keywords ["clima"; "safra"; "China"]
    "Compras da CHINA elevam a safra; safra recorde" = ["safra"; "China"].
Proof. reflexivity. Qed.

(** Started on [adm], [backtest.py] maps the ticker to its alias and
    builds the query of the specification. *)
Example adm_query_of_backtest :
  Backtest.tickers (Backtest.config adm_monitor) = ["ADM"]
  ∧ Backtest.ticker_to_company adm_monitor = [("ADM", "Archer Daniels Midland")]
  ∧ Shared._build_search_query (Backtest.ticker_to_company adm_monitor)
      ["clima"; "safra"] "ADM" = adm_query.
Proof. repeat split; reflexivity. Qed.

(** With well-formed answers the article of the scenario is alerted once
    by [stock_news_monitor.py], in the first of the two cycles. *)
Example soy_same_article_twice :
  alerts (Monitor.log (Monitor.main "key" None same_article_twice 1).2) =
  ["https://example.org/safra"].
Proof. vm_compute. reflexivity. Qed.

(** C1, on the code. The article of the scenario names the keyword safra
    and is handed over in two consecutive cycles.  [backtest.py] never
    writes a block for it: both fetches end in the refused constructor
    call, the file holds the banner only, the seen set stays empty.
    [stock_news_monitor.py] writes no block for it either when the first
    answer also holds an article without [url]: the URL is marked, the
    fetch returns nothing, and the second cycle skips it. *)
Theorem same_url_twice_not_logged :
  Shared._extract_matched_keywords Backtest.default_keywords
    (Backtest.article_text harvest) = ["safra"]
  ∧ match Backtest.main ["adm"] (Some "key") None same_article_twice 1 with
    | Some (monitor, (st, outcome)) =>
        outcome = inr tt ∧
        Backtest.tickers (Backtest.config monitor) = ["ADM"] ∧
        file_alerts (Backtest.file st) = [] ∧
        Backtest.processed_articles st = ∅ ∧
        List.filter (fun r => bool_decide (r.1 = ERROR)) (Backtest.log st) =
        [ (ERROR, "Error fetching news for ADM: " +:+
                  exn_text (unexpected_keyword "NewsArticle" "source"));
          (ERROR, "Error fetching news for ADM: " +:+
                  exn_text (unexpected_keyword "NewsArticle" "source")) ]
    | None => False
    end
  ∧ Shared._extract_matched_keywords Monitor.default_keywords
      (Monitor.article_text harvest) = ["colheita"; "safra"]
  ∧ (let st := (Monitor.main "key" None malformed_then_same 1).2 in
     alerts (Monitor.log st) = [] ∧
     "https://example.org/safra" ∈ Monitor.processed_articles st ∧
     List.filter (fun r => bool_decide (r.1 = ERROR)) (Monitor.log st) =
     [ (ERROR, "Error fetching news for Brasil: " +:+ exn_text (KeyError "url")) ]).
Proof.
  split; [vm_compute; reflexivity|]. split; [vm_compute; repeat split; reflexivity|].
  split; [vm_compute; reflexivity|].
  split; [vm_compute; reflexivity|]. split; [|vm_compute; reflexivity].
  apply (bool_decide_eq_true_1 _). vm_compute. reflexivity.
Qed.

Lemma extract_matches_subsequence_witness :
  NoDup ["clima"; "safra"; "China"]
  ∧ Shared._extract_matched_keywords ["clima"; "safra"; "China"]
      "Compras da CHINA elevam a safra; safra recorde" = ["safra"; "China"]
  ∧ NoDup (Shared._extract_matched_keywords ["clima"; "safra"; "China"]
             "Compras da CHINA elevam a safra; safra recorde")
  ∧ count_occ String.eq_dec
      (Shared._extract_matched_keywords ["clima"; "safra"; "China"]
         "Compras da CHINA elevam a safra; safra recorde") "safra" = 1.
Proof.
  assert (NoDup ["clima"; "safra"; "China"]) as Hnd.
  { apply (bool_decide_eq_true_1 _). vm_compute. reflexivity. }
  destruct (extract_matches_subsequence ["clima"; "safra"; "China"]
              "Compras da CHINA elevam a safra; safra recorde")
    as (_ & _ & _ & _ & Honce & Hdistinct).
  split; [exact Hnd|]. split; [reflexivity|]. split; [exact (Hdistinct Hnd)|].
  apply Honce; [reflexivity|]. apply (bool_decide_eq_true_1 _). vm_compute. reflexivity.
Defined.

(** C4 as stated fails: a keyword that the configured list names twice is
    reported twice for a text that contains it. *)
Lemma repeated_keyword_reported_twice :
  str_in (lower "safra") (lower "Safra recorde de soja") = true
  ∧ Shared._extract_matched_keywords ["safra"; "safra"] "Safra recorde de soja" =
    ["safra"; "safra"]
  ∧ count_occ String.eq_dec
      (Shared._extract_matched_keywords ["safra"; "safra"] "Safra recorde de soja")
      "safra" = 2
  ∧ ¬ NoDup (Shared._extract_matched_keywords ["safra"; "safra"] "Safra recorde de soja").
Proof.
  split; [reflexivity|]. split; [reflexivity|]. split; [reflexivity|].
  apply (bool_decide_eq_false_1 _). vm_compute. reflexivity.
Qed.

Lemma fetch_failure_contained_witness :
  api network_down 0 0
    (Shared._build_search_query (Monitor.ticker_to_company soy)
       (Monitor.keywords soy) "Brasil")
  = Raise (Exn "ConnectionError" "network unreachable")
  ∧ Monitor.fetch_news_for_ticker soy network_down 0 0 "Brasil" fresh =
    (Monitor.logger ERROR "Error fetching news for Brasil: network unreachable" fresh, []).
Proof.
  destruct (fetch_failure_contained soy network_down 0 0 "Brasil" fresh fresh
              (Exn "ConnectionError" "network unreachable")) as [Hraise Hcontained].
  split; [reflexivity|].
  destruct (Hcontained (Hraise eq_refl)) as [Hfetch _]. exact Hfetch.
Defined.

Lemma unmatched_not_seen_witness :
  raw_url football = Some "https://example.org/jogo"
  ∧ ¬ relevant soy football
  ∧ ∃ st1,
      Monitor.fetch_loop soy "Brasil" [football] fresh [] =
      Monitor.fetch_loop soy "Brasil" [] st1 [] ∧
      Monitor.processed_articles st1 = Monitor.processed_articles fresh ∧
      alerts (Monitor.log st1) = alerts (Monitor.log fresh).
Proof.
  split; [reflexivity|]. split; [exact football_irrelevant|].
  apply (proj1 (unmatched_not_seen soy "Brasil") football [] fresh []
           "https://example.org/jogo" eq_refl football_irrelevant).
Defined.

(** C6 as stated fails: no configured keyword occurs in the title, in the
    description or in the two put together, yet the article is returned,
    marked as seen and written to the sink, because the text that is
    matched has a space between title and description and so holds
    [acordo comercial]. *)
Lemma keyword_across_title_and_description :
  raw_title trade_deal = Some (Str "Paises fecham novo acordo")
  ∧ raw_description trade_deal = Some (Str "comercial de fertilizantes")
  ∧ Forall (fun k =>
      str_in (lower k) (lower "Paises fecham novo acordo") = false
      ∧ str_in (lower k) (lower "comercial de fertilizantes") = false
      ∧ str_in (lower k)
          (lower ("Paises fecham novo acordo" +:+ "comercial de fertilizantes")) = false)
      (Monitor.keywords soy)
  ∧ (let result := Monitor.fetch_news_for_ticker soy trade_news 0 0 "Brasil" fresh in
     map Monitor.url result.2 = ["https://example.org/acordo"]
     ∧ map Monitor.matched_keywords result.2 = [["acordo comercial"]]
     ∧ "https://example.org/acordo" ∈ Monitor.processed_articles result.1)
  ∧ alerts (Monitor.log (Monitor.main "key" None trade_news 0).2) =
    ["https://example.org/acordo"].
Proof.
  split; [reflexivity|]. split; [reflexivity|]. split.
  { repeat (constructor; [by vm_compute|]). constructor. }
  split; [|vm_compute; reflexivity].
  split; [vm_compute; reflexivity|]. split; [vm_compute; reflexivity|].
  apply (bool_decide_eq_true_1 _). vm_compute. reflexivity.
Qed.

Lemma analysis_stub_and_fallback_witness :
  Monitor.process_article_with failing_analyzer "2025-01-01 00:00:00" terse fresh =
  Monitor.mkState ∅
    (block_before_analysis "2025-01-01 00:00:00" terse ++
     [ (ERROR, "Error in AI analysis: service unavailable");
       (INFO, rule +:+ newline) ]).
Proof.
  destruct analysis_stub_and_fallback as (_ & _ & _ & _ & _ & Hfallback).
  destruct (Hfallback failing_analyzer "2025-01-01 00:00:00" terse fresh
              (Monitor.mkState ∅ (block_before_analysis "2025-01-01 00:00:00" terse))
              (Exn "RuntimeError" "service unavailable") eq_refl) as [Heq _].
  exact Heq.
Defined.

Lemma description_line_truncated_witness :
  String.length (format (Monitor.description verbose)) = 250
  ∧ String.length (shown_description (format (Monitor.description verbose))) = 203.
Proof.
  split; [vm_compute; reflexivity|].
  apply (description_line_truncated "2025-01-01 00:00:00" verbose fresh).
  vm_compute. reflexivity.
Defined.

(** C9 as stated fails: an article returned by the fetch with an empty
    description, so one of at most 200 characters, gets no description
    line. *)
Lemma empty_description_not_logged :
  (Monitor.fetch_news_for_ticker soy headline_only 0 0 "Brasil" fresh).2 = [terse]
  ∧ String.length (format (Monitor.description terse)) ≤ 200
  ∧ ((INFO, "Description: " +:+ format (Monitor.description terse) +:+ newline)
     ∉ Monitor.log (Monitor.process_article "2025-01-01 00:00:00" terse fresh))
  ∧ description_lines
      (Monitor.log (Monitor.process_article "2025-01-01 00:00:00" terse fresh)) = [].
Proof.
  split; [vm_compute; reflexivity|]. split; [vm_compute; lia|].
  split; [|vm_compute; reflexivity].
  apply (bool_decide_eq_false_1 _). vm_compute. reflexivity.
Qed.

Lemma marked_then_lost_witness :
  ∃ st',
    Monitor.fetch_news_for_ticker soy malformed_then_same 0 0 "Brasil" fresh = (st', [])
    ∧ "https://example.org/safra" ∈ Monitor.processed_articles st'
    ∧ alerts (Monitor.log st') = [].
Proof.
  destruct (marked_then_lost soy malformed_then_same 0 0 "Brasil" fresh
              [harvest] [] no_url harvest "https://example.org/safra")
    as (st' & Hfetch & Hseen & Hquiet & _).
  - reflexivity.
  - constructor; [by eexists | constructor].
  - reflexivity.
  - left.
  - reflexivity.
  - exact harvest_relevant.
  - exists st'. split; [exact Hfetch|]. split; [exact Hseen | exact Hquiet].
Defined.

Lemma unseen_article_refused_witness :
  ∃ e st',
    Backtest.fetch_news_for_ticker adm_monitor same_article_twice 0 0 "ADM" adm_fresh =
    (st', inr [])
    ∧ (ERROR, "Error fetching news for " +:+ "ADM" +:+ ": " +:+ exn_text e)
      ∈ Backtest.log st'
    ∧ Backtest.processed_articles st' = Backtest.processed_articles adm_fresh
    ∧ Backtest.file st' = Backtest.file adm_fresh.
Proof.
  destruct (unseen_article_refused adm_monitor "ADM") as (_ & _ & _ & Hfetch & _).
  apply (Hfetch same_article_twice 0 0 adm_fresh (Response (Some [harvest])) harvest
           "https://example.org/safra").
  - reflexivity.
  - left.
  - reflexivity.
  - apply not_elem_of_empty.
Defined.

Lemma tickers_of_config_witness :
  Backtest.parse_args ["adm"] (Some "key") None = Some adm_args
  ∧ Backtest.tickers (Backtest.main_config adm_args) = ["ADM"]
  ∧ Forall (fun t => upper t = t) (Backtest.tickers (Backtest.main_config adm_args)).
Proof.
  destruct tickers_of_config as [Hmain _].
  destruct (Hmain ["adm"] (Some "key") None adm_args eq_refl) as (Heq & _ & Hup & _).
  split; [reflexivity|]. split; [exact Heq|]. exact (Hup ascii_upper_idempotent).
Defined.

(** C7 as stated fails: the ticker of [stock_news_monitor.py] is not in
    upper case. *)
Lemma soy_ticker_not_upper :
  ¬ ∀ config : Monitor.MonitorConfig,
      Monitor.tickers (Monitor.__init__ config).1 ≠ [] ∧
      Forall (fun t => upper t = t) (Monitor.tickers (Monitor.__init__ config).1).
Proof.
  intros Hall.
  destruct (Hall (Monitor.mkMonitorConfig "key" 30 Monitor.default_keywords)) as [_ Hup].
  apply Forall_cons in Hup as [Hup _]. vm_compute in Hup. discriminate.
Qed.

End Scenarios.

(** * Further properties *)

(** ** Dictionaries *)

Lemma dict_get_set (d : dict) (k v k' : string) :
  dict_get (dict_set d k v) k' = if decide (k = k') then Some v else dict_get d k'.
Proof.
  induction d as [|[k0 v0] d IH]; simpl.
  - destruct (String.eqb_spec k k'); case_decide; congruence.
  - destruct (String.eqb_spec k0 k) as [->|Hne]; simpl.
    + destruct (String.eqb_spec k k'); case_decide; congruence.
    + destruct (String.eqb_spec k0 k'); [|done].
      case_decide; congruence.
Qed.

Lemma keys_set (d : dict) (k v k' : string) :
  k' ∈ keys (dict_set d k v) ↔ k' = k ∨ k' ∈ keys d.
Proof.
  unfold keys. induction d as [|[k0 v0] d IH]; simpl.
  - rewrite list_elem_of_singleton, elem_of_nil. tauto.
  - destruct (String.eqb_spec k0 k) as [->|Hne]; simpl.
    + rewrite !elem_of_cons. tauto.
    + rewrite !elem_of_cons, IH. tauto.
Qed.

Lemma keys_set_NoDup (d : dict) (k v : string) :
  NoDup (keys d) → NoDup (keys (dict_set d k v)).
Proof.
  unfold keys. induction d as [|[k0 v0] d IH]; simpl.
  - intros _. apply NoDup_singleton.
  - intros [Hk0 Hd]%NoDup_cons.
    destruct (String.eqb_spec k0 k) as [->|Hne]; simpl.
    + by apply NoDup_cons.
    + apply NoDup_cons. split; [|auto].
      change (k0 ∉ keys (dict_set d k v)). rewrite keys_set. intros [?|?]; done.
Qed.

(** A hit of a lookup is an entry of the dict. *)
Lemma dict_get_Some_elem (d : dict) (k v : string) :
  dict_get d k = Some v → (k, v) ∈ d.
Proof.
  induction d as [|[k0 v0] d IH]; simpl; [done|].
  destruct (String.eqb_spec k0 k) as [->|Hne].
  - intros [= ->]. left.
  - intros Hd. right. auto.
Qed.

(** A comprehension [{t: f(t) for t in ts}] added to [d]. *)
Lemma comprehension_get (f : string → string) (ts : list string) :
  ∀ (d : dict) (t : string),
    dict_get (fold_left (fun d kv => dict_set d kv.1 kv.2)
                (map (fun t => (t, f t)) ts) d) t =
    if decide (t ∈ ts) then Some (f t) else dict_get d t.
Proof.
  induction ts as [|x ts IH]; intros d t; cbn [fold_left List.map fst snd].
  - by rewrite decide_False by apply not_elem_of_nil.
  - rewrite IH, dict_get_set.
    destruct (decide (t ∈ ts)) as [Hin|Hout].
    + rewrite decide_True; [done | by right].
    + destruct (decide (x = t)) as [->|Hne].
      * rewrite decide_True; [done | left].
      * rewrite decide_False; [done|].
        intros [->|?]%elem_of_cons; done.
Qed.

Lemma comprehension_keys (f : string → string) (ts : list string) :
  ∀ (d : dict),
    NoDup (keys d) →
    NoDup (keys (fold_left (fun d kv => dict_set d kv.1 kv.2)
                   (map (fun t => (t, f t)) ts) d)) ∧
    ∀ k, k ∈ keys (fold_left (fun d kv => dict_set d kv.1 kv.2)
                     (map (fun t => (t, f t)) ts) d) ↔ k ∈ ts ∨ k ∈ keys d.
Proof.
  induction ts as [|x ts IH]; intros d Hd; simpl.
  - split; [done|]. intros k. rewrite elem_of_nil. tauto.
  - destruct (IH (dict_set d x (f x)) (keys_set_NoDup d x (f x) Hd)) as [Hnd Hkeys].
    split; [done|]. intros k. rewrite Hkeys, keys_set, elem_of_cons. tauto.
Qed.

(** ** The ticker mapping of backtest.py *)

(** X1. The mapping that [_build_ticker_mapping] builds answers a
    configured ticker with its entry in [common_mappings], or with the
    ticker itself when it has none there, and misses every other ticker;
    its keys are the configured tickers, each once. *)
Theorem ticker_mapping_lookup (config : Backtest.MonitorConfig) (t : string) :
  let m := Backtest._build_ticker_mapping config in
  (t ∈ Backtest.tickers config →
   dict_get m t = Some (get Backtest.common_mappings t t))
  ∧ (t ∉ Backtest.tickers config → dict_get m t = None ∧ get m t t = t)
  ∧ NoDup (keys m)
  ∧ (t ∈ keys m ↔ t ∈ Backtest.tickers config).
Proof.
  intros m. subst m. unfold Backtest._build_ticker_mapping, dict_of.
  pose proof (comprehension_get (fun t => get Backtest.common_mappings t t)
                (Backtest.tickers config) [] t) as Hget.
  cbv beta in Hget.
  destruct (comprehension_keys (fun t => get Backtest.common_mappings t t)
              (Backtest.tickers config) [] (NoDup_nil_2)) as [Hnd Hkeys].
  split; [|split; [|split]].
  - intros Hin. by rewrite Hget, decide_True.
  - intros Hout. rewrite decide_False in Hget by done.
    split; [done|]. unfold get at 1. by rewrite Hget.
  - done.
  - rewrite Hkeys. unfold keys. simpl. rewrite elem_of_nil. tauto.
Qed.

Section BacktestMapping.
Context `{Builtins}.

Lemma common_mappings_entries :
  Backtest.common_mappings =
  [ ("FUT SJC", "Futuro de soja na B3"); ("CME", "CME Group");
    ("NYSE", "NYSE indice composto"); ("B3", "Bolsa B3");
    ("ADM", "Archer Daniels Midland"); ("CARG", "Cargill"); ("Bunge", "Bunge");
    ("Louis Dreyfus", "Louis Dreyfus"); ("Amaggi", "Amaggi");
    ("SLC Agr" +:+ chr 237 +:+ "cola", "SLC Agr" +:+ chr 237 +:+ "cola");
    ("BrasilAgro", "BrasilAgro"); ("Viterra", "Viterra");
    ("COFCO International", "COFCO International"); ("Syngenta", "Syngenta");
    ("Bayer", "Bayer"); ("BASF", "BASF"); ("Mosaic", "Mosaic");
    ("Nutrien", "Nutrien"); ("ILPF", "relacao de preco soja e boi") ].
Proof. reflexivity. Qed.

(** X2. [main] upper-cases the tickers before the mapping is built, so no
    ticker of a run is one of the keys of [common_mappings] that hold a
    lower-case letter: the alias of a ticker is the ticker itself or the
    alias of one of the eight upper-case keys, and the eleven other
    entries are never used. *)
Theorem mixed_case_aliases_unreachable (a : Backtest.args) (t : string) :
  (∀ s, upper (upper s) = upper s) →
  Forall (fun k => upper k ≠ k) mixed_case_keys →
  t ∈ Backtest.tickers (Backtest.main_config a) →
  let monitor := (Backtest.__init__ (Backtest.main_config a)).1 in
  let alias := get (Backtest.ticker_to_company monitor) t t in
  (t ∉ mixed_case_keys) ∧ (alias = t ∨ (t, alias) ∈ upper_case_entries).
Proof.
  intros Hidem Hmixed Ht monitor alias.
  assert (upper t = t) as Hup.
  { simpl in Ht. apply list_elem_of_fmap in Ht as (s & -> & _). apply Hidem. }
  assert (t ∉ mixed_case_keys) as Hnot.
  { intros Hin. rewrite Forall_forall in Hmixed. by apply (Hmixed t Hin). }
  split; [done|].
  assert (alias = get Backtest.common_mappings t t) as ->.
  { subst alias monitor. simpl. unfold Backtest._build_ticker_mapping, dict_of.
    unfold get at 1.
    rewrite (comprehension_get (fun t => get Backtest.common_mappings t t)).
    by rewrite decide_True. }
  unfold get. destruct (dict_get Backtest.common_mappings t) as [v|] eqn:Hget;
    [|by left].
  right. simpl. apply dict_get_Some_elem in Hget.
  rewrite common_mappings_entries in Hget.
  repeat (apply elem_of_cons in Hget as [Hget|Hget]);
    try (by apply elem_of_nil in Hget);
    injection Hget as -> ->;
    first [ by (exfalso; apply Hnot; unfold mixed_case_keys;
                rewrite !elem_of_cons; tauto)
          | by (unfold upper_case_entries; rewrite !elem_of_cons; tauto) ].
Qed.

Lemma constructed_fields (kwargs o : Backtest.object) :
  Backtest.NewsArticle kwargs = inr o →
  ∃ t u p m k,
    o = [ ("title", t); ("url", u); ("published_at", p);
          ("matched_keywords", m); ("ticker", k) ].
Proof.
  unfold Backtest.NewsArticle.
  destruct (List.find _ kwargs) as [[kw v]|]; [done|].
  unfold Backtest.NewsArticle_fields. simpl.
  repeat case_match; intros; simplify_eq; eauto 10.
Qed.

(** X3. Whatever object the [NewsArticle] constructor of [backtest.py]
    returns, [process_article] fails on it: it writes the alert line, the
    two rules, the ticker and the title to the article file and then
    raises AttributeError for [source], an attribute the dataclass does
    not have; nothing after that is written. *)
Theorem backtest_block_breaks_at_source (ts : string) (kwargs o : Backtest.object)
    (st : Backtest.state) :
  Backtest.NewsArticle kwargs = inr o →
  ∃ tk title,
    Backtest.attr_get o "ticker" = Some tk ∧
    Backtest.attr_get o "title" = Some title ∧
    Backtest.process_article ts o st =
    (Backtest.mkState (Backtest.processed_articles st) (Backtest.log st)
       (Backtest.file st ++ backtest_partial_block ts tk title),
     inl (AttributeError "NewsArticle" "source")).
Proof.
  intros (t & u & p & m & k & ->)%constructed_fields.
  exists k, t. split; [reflexivity|]. split; [reflexivity|].
  unfold Backtest.process_article, mbind, Backtest.M_bind, Backtest.write,
    Backtest.getattr, Backtest.raise, backtest_partial_block. simpl.
  by rewrite <- !app_assoc.
Qed.

End BacktestMapping.

Section BacktestRun.
Context `{Builtins}.
Variable self : Backtest.NewsMonitor.

(** The article file after a run. *)
Lemma backtest_run_file (w : world) (scheduled : nat) (st : Backtest.state) :
  ∃ st',
    Backtest.start_monitoring self w scheduled st = (st', inr tt) ∧
    Backtest.file st' =
    Backtest.file st ++ backtest_banner self ++
    [newline +:+ icon_wave +:+ " Stopping Stock News Monitor..."] ∧
    Backtest.processed_articles st' = Backtest.processed_articles st.
Proof.
  unfold Backtest.start_monitoring, mbind, Backtest.M_bind. simpl.
  match goal with
  | |- context [Backtest.check_news self w 0 ?s] =>
      destruct (backtest_check_news_quiet self w 0 s) as (st1 & -> & Hp1 & Hf1)
  end.
  destruct (backtest_cycles_quiet self w scheduled 1 st1) as (st2 & -> & Hp2 & Hf2).
  simpl. eexists. split; [reflexivity|]. simpl.
  rewrite Hp2, Hp1, Hf2, Hf1. simpl. split; [|done].
  unfold backtest_banner. by rewrite <- !app_assoc.
Qed.

(** X4. Whatever the API answers, a run of [backtest.py] ends normally
    and adds to the article file the six banner strings and the stop
    string, and nothing else; the seen set is left as it was. *)
Theorem backtest_file_is_banner (w : world) (scheduled : nat) (st : Backtest.state) :
  ∃ st',
    Backtest.start_monitoring self w scheduled st = (st', inr tt) ∧
    Backtest.file st' =
    Backtest.file st ++ backtest_banner self ++
    [newline +:+ icon_wave +:+ " Stopping Stock News Monitor..."] ∧
    Backtest.processed_articles st' = Backtest.processed_articles st.
Proof. apply backtest_run_file. Qed.

End BacktestRun.

(** ** The log of stock_news_monitor.py *)

Section MonitorLog.
Context `{Builtins}.
Variable self : Monitor.NewsMonitor.

Lemma emit_info (msg : string) (log : list record) :
  emit INFO msg log = log ++ [(INFO, msg)].
Proof. done. Qed.

Lemma fetch_loop_appends (tk : string) (arts : list raw_article) :
  ∀ (st : Monitor.state) (acc : list Monitor.NewsArticle) st' res,
    Monitor.fetch_loop self tk arts st acc = (st', res) →
    ∃ l, Monitor.log st' = Monitor.log st ++ l ∧ alerts l = [].
Proof.
  induction arts as [|r rest IH]; intros st acc st' res; simpl.
  - intros [= <- <-]. exists []. by rewrite app_nil_r.
  - destruct (raw_url r) as [u|];
      [|intros [= <- <-]; exists []; by rewrite app_nil_r].
    case_bool_decide; [apply IH|].
    destruct (Shared._extract_matched_keywords _ _) as [|k ks];
      intros (l & Hl & Hal)%IH; simpl in Hl; rewrite !emit_info in Hl;
      eexists; (split; [by rewrite Hl, <- !app_assoc|]);
      by rewrite !alerts_app, Hal.
Qed.

Lemma fetch_news_appends (w : world) (c i : nat) (tk : string)
    (st st' : Monitor.state) (out : list Monitor.NewsArticle) :
  Monitor.fetch_news_for_ticker self w c i tk st = (st', out) →
  ∃ l, Monitor.log st' = Monitor.log st ++ l ∧ alerts l = [].
Proof.
  unfold Monitor.fetch_news_for_ticker, Monitor.fetch_body.
  destruct (api w c i _) as [e|resp].
  - intros [= <- <-]. simpl. eexists. split; [reflexivity|done].
  - destruct (Monitor.fetch_loop _ _ _ _ _) as [st1 res] eqn:Hloop.
    apply fetch_loop_appends in Hloop as (l & Hl & Hal).
    unfold Monitor.logger, emit in Hl. simpl in Hl.
    destruct res as [e|news]; intros [= <- <-]; unfold Monitor.logger, emit; simpl;
      rewrite Hl.
    + exists ([(INFO, "Found " +:+ pretty (length (default [] (resp_articles resp))) +:+
                      " total articles for " +:+ tk)] ++ l ++
              [(ERROR, "Error fetching news for " +:+ tk +:+ ": " +:+ exn_text e)]).
      split; [by rewrite <- !app_assoc|].
      by rewrite !alerts_app, Hal.
    + exists ([(INFO, "Found " +:+ pretty (length (default [] (resp_articles resp))) +:+
                      " total articles for " +:+ tk)] ++ l).
      split; [by rewrite <- !app_assoc|].
      by rewrite !alerts_app, Hal.
Qed.

Lemma process_all_appends (w : world) (c i : nat) (articles : list Monitor.NewsArticle) :
  ∀ (j : nat) (st : Monitor.state) (total : nat) st' total',
    Monitor.process_all w c i j articles st total = (st', total') →
    ∃ l, Monitor.log st' = Monitor.log st ++ l ∧
         alerts l = map Monitor.url articles ∧
         total' = total + length articles.
Proof.
  induction articles as [|a rest IH]; intros j st total st' total'; simpl.
  - intros [= <- <-]. exists []. rewrite app_nil_r. auto with lia.
  - intros (l & Hl & Hal & Hn)%IH. rewrite process_article_log in Hl.
    cbn [Monitor.log] in Hl.
    exists ((block_before_analysis (now w c i j) a ++
             [ (INFO, icon_robot +:+ " AI Analysis requested for: " +:+ Monitor.url a);
               (INFO, "AI Analysis: " +:+ "AI analysis not yet implemented" +:+ newline) ])
            ++ l).
    split; [by rewrite Hl, <- !app_assoc|].
    split; [|lia]. rewrite !alerts_app, alerts_block, Hal. reflexivity.
Qed.

Lemma check_tickers_appends (w : world) (c : nat) (tks : list string) :
  ∀ (i : nat) (st : Monitor.state) (total : nat) st' total',
    Monitor.check_tickers self w c i tks st total = (st', total') →
    ∃ l, Monitor.log st' = Monitor.log st ++ l ∧
         total' = total + length (alerts l).
Proof.
  induction tks as [|tk rest IH]; intros i st total st' total'; simpl.
  - intros [= <- <-]. exists []. rewrite app_nil_r. simpl. auto with lia.
  - destruct (Monitor.fetch_news_for_ticker self w c i tk st) as [st1 out] eqn:Hfetch.
    destruct (Monitor.process_all w c i 0 out st1 total) as [st2 total2] eqn:Hall.
    apply fetch_news_appends in Hfetch as (l1 & Hl1 & Hal1).
    apply process_all_appends in Hall as (l2 & Hl2 & Hal2 & Hn2).
    intros (l3 & Hl3 & Hn3)%IH.
    exists (l1 ++ l2 ++ l3). split; [by rewrite Hl3, Hl2, Hl1, <- !app_assoc|].
    rewrite !alerts_app, Hal1, Hal2, !length_app, length_map. simpl. lia.
Qed.

(** The records of one cycle. *)
Lemma check_news_log (w : world) (c : nat) (st : Monitor.state) :
  ∃ body,
    Monitor.log (Monitor.check_news self w c st) =
    Monitor.log st ++ [header_record self] ++ body ++
    [summary_record (length (alerts body))].
Proof.
  unfold Monitor.check_news.
  destruct (Monitor.check_tickers _ _ _ _ _ _ _) as [st1 total] eqn:Hloop.
  apply check_tickers_appends in Hloop as (body & Hl & Hn). simpl in Hl, Hn.
  exists body. unfold summary_record. rewrite <- Hn.
  case_decide; simpl; rewrite emit_info, Hl, emit_info, <- !app_assoc; reflexivity.
Qed.

Lemma check_news_appends (w : world) (c : nat) (st : Monitor.state) :
  Monitor.log st `prefix_of` Monitor.log (Monitor.check_news self w c st).
Proof. destruct (check_news_log w c st) as [body ->]. by eexists. Qed.

Lemma cycles_appends (w : world) (n : nat) :
  ∀ (c : nat) (st : Monitor.state),
    Monitor.log st `prefix_of` Monitor.log (Monitor.cycles self w c n st).
Proof.
  induction n as [|n IH]; intros c st; simpl; [done|].
  etrans; [apply check_news_appends | apply IH].
Qed.

(** X5. A cycle of [stock_news_monitor.py] appends its header record, the
    records of its fetches and blocks, and one closing record; the closing
    record reads "No new relevant articles found" exactly when the cycle
    wrote no article block, and otherwise gives the number of blocks it
    wrote. *)
Theorem check_news_summary (w : world) (c : nat) (st : Monitor.state) :
  ∃ body,
    Monitor.log (Monitor.check_news self w c st) =
    Monitor.log st ++ [header_record self] ++ body ++
    [summary_record (length (alerts body))].
Proof. apply check_news_log. Qed.

Lemma start_monitoring_banner (w : world) (n : nat) (st : Monitor.state) :
  ∃ k,
    Monitor.log (Monitor.start_monitoring self w n st) =
    Monitor.log st ++
    [ (INFO, newline +:+ newline +:+ icon_rocket +:+
             " Starting Soy News Monitor" +:+ newline);
      (INFO, "Monitoring tickers: " +:+ join ", " (Monitor.tickers self) +:+ newline);
      (INFO, "Refresh interval: " +:+
             pretty (Monitor.refresh_interval (Monitor.config self)) +:+
             " seconds" +:+ newline);
      (INFO, "Keywords: " +:+ join ", " (List.firstn 5 (Monitor.keywords self)) +:+
             "... (+" +:+ pretty (Z.of_nat (length (Monitor.keywords self)) - 5)%Z +:+
             " more)" +:+ newline);
      (INFO, "Press Ctrl+C to stop" +:+ newline);
      (INFO, rule +:+ newline) ] ++ k.
Proof.
  unfold Monitor.start_monitoring.
  match goal with
  | |- context [Monitor.check_news self w 0 ?s] =>
      pose proof (cycles_appends w (S n) 0 s) as [k Hk]
  end.
  simpl in Hk. simpl. rewrite !emit_info, Hk. simpl. rewrite !emit_info.
  rewrite <- !app_assoc. by eexists.
Qed.

(** X6. The log is append-only: a fetch, a cycle, any number of cycles
    and a whole run leave every record that was there in place and only
    add records after it. *)
Theorem log_append_only (w : world) (c i n : nat) (tk : string) (st : Monitor.state) :
  Monitor.log st `prefix_of` Monitor.log (Monitor.fetch_news_for_ticker self w c i tk st).1
  ∧ Monitor.log st `prefix_of` Monitor.log (Monitor.check_news self w c st)
  ∧ Monitor.log st `prefix_of` Monitor.log (Monitor.cycles self w c n st)
  ∧ Monitor.log st `prefix_of` Monitor.log (Monitor.start_monitoring self w n st).
Proof.
  split; [|split; [apply check_news_appends|split; [apply cycles_appends|]]].
  - destruct (Monitor.fetch_news_for_ticker self w c i tk st) as [st' out] eqn:Hfetch.
    apply fetch_news_appends in Hfetch as (l & Hl & _). simpl. rewrite Hl.
    by eexists.
  - unfold Monitor.start_monitoring.
    match goal with
    | |- context [Monitor.check_news self w 0 ?s] =>
        pose proof (cycles_appends w (S n) 0 s) as [k Hk]
    end.
    simpl in Hk. simpl. rewrite !emit_info, Hk. simpl. rewrite !emit_info.
    rewrite <- !app_assoc. by eexists.
Qed.

End MonitorLog.

(** ** The banner *)

Lemma pretty_below_five (n : nat) :
  n < 5 → pretty (Z.of_nat n - 5)%Z = "-" +:+ pretty (5 - n).
Proof. do 5 (destruct n as [|n]; [reflexivity|]). lia. Qed.

Section Banner.
Context `{Builtins}.

(** X7. With fewer than five keywords the banner of either file shows all
    of them, followed by a negative count: "... (+-k more)", k being what
    is missing to five. *)
Theorem banner_negative_count :
  (∀ (self : Monitor.NewsMonitor) (w : world) (n : nat) (st : Monitor.state),
     length (Monitor.keywords self) < 5 →
     (INFO, "Keywords: " +:+ join ", " (Monitor.keywords self) +:+
            "... (+-" +:+ pretty (5 - length (Monitor.keywords self)) +:+
            " more)" +:+ newline)
     ∈ Monitor.log (Monitor.start_monitoring self w n st))
  ∧ (∀ (self : Backtest.NewsMonitor) (w : world) (n : nat) (st : Backtest.state),
       length (Backtest.keywords self) < 5 →
       ("Keywords: " +:+ join ", " (Backtest.keywords self) +:+
        "... (+-" +:+ pretty (5 - length (Backtest.keywords self)) +:+
        " more)" +:+ newline)
       ∈ Backtest.file (Backtest.start_monitoring self w n st).1).
Proof.
  split.
  - intros self w n st Hlen.
    destruct (start_monitoring_banner self w n st) as [k ->].
    rewrite firstn_all2, pretty_below_five by lia.
    apply elem_of_app. right. apply elem_of_app. left.
    do 3 right. left.
  - intros self w n st Hlen.
    destruct (backtest_run_file self w n st) as (st' & -> & Hfile & _). simpl.
    rewrite Hfile.
    unfold backtest_banner. rewrite firstn_all2, pretty_below_five by lia.
    apply elem_of_app. right. apply elem_of_app. left.
    do 3 right. left.
Qed.

End Banner.

(** ** Order and repetition of fetches *)

Section FetchOrder.
Context `{Builtins}.
Variable self : Monitor.NewsMonitor.

Local Abbreviation query tk :=
  (Shared._build_search_query (Monitor.ticker_to_company self)
     (Monitor.keywords self) tk).

Lemma fetch_loop_order (tk : string) (arts : list raw_article) :
  ∀ (st : Monitor.state) (acc : list Monitor.NewsArticle) st' out,
    Monitor.fetch_loop self tk arts st acc = (st', inr out) →
    ∃ new, out = acc ++ new ∧
           sublist (map Monitor.url new) (omap raw_url arts) ∧
           Forall (fun a => Monitor.ticker a = Str tk) new.
Proof.
  induction arts as [|r rest IH]; intros st acc st' out; simpl.
  - intros [= <- <-]. exists []. rewrite app_nil_r. repeat split; constructor.
  - destruct (raw_url r) as [u|] eqn:Hurl; [|done].
    case_bool_decide.
    { intros (new & -> & Hsub & Hall)%IH. exists new.
      split; [done|]. split; [by apply sublist_cons | done]. }
    destruct (Shared._extract_matched_keywords _ _) as [|k ks].
    { intros (new & -> & Hsub & Hall)%IH. exists new.
      split; [done|]. split; [by apply sublist_cons | done]. }
    intros (new & -> & Hsub & Hall)%IH.
    eexists (_ :: new). split; [by rewrite <- app_assoc|].
    split; [simpl; by apply sublist_skip|]. by constructor.
Qed.

(** X8. The article blocks that one ticker adds to the sink follow the
    order of the API answer: their URLs are, in order, a subsequence of
    the URLs of the answered articles, and each block carries the ticker
    that was queried. *)
Theorem alerts_follow_answer_order (w : world) (c i : nat) (tk : string)
    (st st1 st2 : Monitor.state) (out : list Monitor.NewsArticle)
    (total total' : nat) (resp : response) :
  api w c i (query tk) = Return resp →
  Monitor.fetch_news_for_ticker self w c i tk st = (st1, out) →
  Monitor.process_all w c i 0 out st1 total = (st2, total') →
  alerts (Monitor.log st2) = alerts (Monitor.log st) ++ map Monitor.url out
  ∧ sublist (map Monitor.url out) (omap raw_url (default [] (resp_articles resp)))
  ∧ Forall (fun a => Monitor.ticker a = Str tk) out.
Proof.
  intros Hapi Hfetch Hall.
  pose proof (fetch_news_spec self _ _ _ _ _ _ _ Hfetch) as (_ & Hal & _).
  apply process_all_spec in Hall as (_ & Hal2 & _).
  split; [by rewrite Hal2, Hal|].
  revert Hfetch. unfold Monitor.fetch_news_for_ticker, Monitor.fetch_body.
  rewrite Hapi.
  destruct (Monitor.fetch_loop _ _ _ _ _) as [st' res] eqn:Hloop.
  destruct res as [e|news]; intros [= <- <-].
  - split; [apply sublist_nil_l | constructor].
  - apply fetch_loop_order in Hloop as (new & -> & Hsub & Hall). done.
Qed.

Lemma fetch_loop_raises (tk : string) (arts : list raw_article) :
  Exists (fun r => raw_url r = None) arts →
  ∀ (st : Monitor.state) (acc : list Monitor.NewsArticle),
    ∃ st', Monitor.fetch_loop self tk arts st acc = (st', inl (KeyError "url")).
Proof.
  induction arts as [|r rest IH]; intros Hex st acc; [by apply Exists_nil in Hex|].
  simpl. destruct (raw_url r) as [u|] eqn:Hurl; [|eauto].
  apply Exists_cons in Hex as [Hr|Hrest]; [congruence|].
  case_bool_decide; [by apply IH|].
  destruct (Shared._extract_matched_keywords _ _); by apply IH.
Qed.

Lemma fetch_loop_skips (tk : string) (seen : gset string) (arts : list raw_article) :
  Forall (fun r => ∃ u, raw_url r = Some u ∧ (relevant self r → u ∈ seen)) arts →
  ∀ (st : Monitor.state) (acc : list Monitor.NewsArticle),
    Monitor.processed_articles st = seen →
    ∃ st', Monitor.fetch_loop self tk arts st acc = (st', inr acc) ∧
           Monitor.processed_articles st' = seen.
Proof.
  induction 1 as [|r rest (u & Hurl & Hrel) _ IH]; intros st acc Hseen; simpl; [eauto|].
  rewrite Hurl. case_bool_decide as Hin; [by apply IH|].
  destruct (Shared._extract_matched_keywords _ _) as [|k ks] eqn:Hm; [by apply IH|].
  exfalso. apply Hin. rewrite Hseen. apply Hrel, relevant_iff. by rewrite Hm.
Qed.

(** X9. A fetch that is handed the same answer as an earlier fetch for
    the same ticker returns no article, whatever the earlier fetch did
    (returned articles, raised on a malformed article or on the API), as
    long as the seen set has not lost a URL in between. *)
Theorem repeated_answer_returns_nothing (w : world) (c i c' i' : nat) (tk : string)
    (st st1 st2 : Monitor.state) (out : list Monitor.NewsArticle) :
  Monitor.fetch_news_for_ticker self w c i tk st = (st1, out) →
  Monitor.processed_articles st1 ⊆ Monitor.processed_articles st2 →
  api w c' i' (query tk) = api w c i (query tk) →
  (Monitor.fetch_news_for_ticker self w c' i' tk st2).2 = [].
Proof.
  unfold Monitor.fetch_news_for_ticker, Monitor.fetch_body.
  intros Hfirst Hsub ->. revert Hfirst.
  destruct (api w c i _) as [e|resp]; [done|].
  set (arts := default [] (resp_articles resp)).
  destruct (decide (Forall (fun r => is_Some (raw_url r)) arts)) as [Hall|Hbad].
  - match goal with
    | |- context [Monitor.fetch_loop self tk arts ?s []] =>
        destruct (fetch_loop_complete self tk arts Hall s []) as (s1 & news & Hloop & Hmarks)
    end.
    rewrite Hloop. intros [= <- <-].
    match goal with
    | |- context [Monitor.fetch_loop self tk arts ?s []] =>
        destruct (fetch_loop_skips tk (Monitor.processed_articles st2) arts) with (st := s) (acc := @nil Monitor.NewsArticle)
          as (s2 & Hsecond & _); [|done|]
    end.
    + apply Forall_forall. intros r Hr.
      rewrite Forall_forall in Hall. destruct (Hall r Hr) as [u Hu].
      exists u. split; [done|]. intros Hrel. apply Hsub. eauto.
    + by rewrite Hsecond.
  - intros _. apply not_Forall_Exists in Hbad; [|apply _].
    assert (Exists (fun r => raw_url r = None) arts) as Hex.
    { eapply Exists_impl; [exact Hbad|]. intros r Hr. simpl in Hr.
      destruct (raw_url r); [|done]. exfalso. apply Hr. by eexists. }
    match goal with
    | |- context [Monitor.fetch_loop self tk arts ?s []] =>
        destruct (fetch_loop_raises tk arts Hex s []) as (s2 & ->)
    end.
    done.
Qed.

End FetchOrder.

(** ** The seen set *)

Section SeenSet.
Context `{Builtins}.
Variable self : Monitor.NewsMonitor.

Lemma marks_from_refl (P : string → Prop) (st : Monitor.state) : marks_from P st st.
Proof. intros u Hu. by left. Qed.

Lemma marks_from_trans (P : string → Prop) (st1 st2 st3 : Monitor.state) :
  marks_from P st1 st2 → marks_from P st2 st3 → marks_from P st1 st3.
Proof.
  intros H12 H23 u Hu. destruct (H23 u Hu) as [Hu2|HP]; [|by right].
  by apply H12.
Qed.

Lemma marks_from_impl (P Q : string → Prop) (st st' : Monitor.state) :
  (∀ u, P u → Q u) → marks_from P st st' → marks_from Q st st'.
Proof. intros HPQ Hm u Hu. destruct (Hm u Hu); auto. Qed.

Lemma fetch_news_marks (w : world) (c i : nat) (tk : string)
    (st st' : Monitor.state) (out : list Monitor.NewsArticle) :
  Monitor.fetch_news_for_ticker self w c i tk st = (st', out) →
  marks_from (fun u => ∃ r, delivered self w c i tk r ∧ raw_url r = Some u ∧
                            relevant self r) st st'.
Proof.
  unfold Monitor.fetch_news_for_ticker, Monitor.fetch_body, delivered.
  destruct (api w c i _) as [e|resp] eqn:Hapi.
  - intros [= <- <-] u Hu. by left.
  - destruct (Monitor.fetch_loop _ _ _ _ _) as [st1 res] eqn:Hloop.
    intros Hst' u Hu.
    assert (Monitor.processed_articles st' = Monitor.processed_articles st1) as Hp
      by (destruct res; by injection Hst' as <- <-).
    rewrite Hp in Hu.
    destruct (fetch_loop_marks self _ _ _ _ _ _ Hloop u Hu)
      as [Hold|(r & Hr & Hurl & Hrel)]; [by left|].
    right. exists r. split; [by exists resp | done].
Qed.

Lemma check_tickers_marks (w : world) (c : nat) (tks : list string) :
  ∀ (i : nat) (st : Monitor.state) (total : nat) st' total',
    Monitor.check_tickers self w c i tks st total = (st', total') →
    marks_from (origin self w c i tks) st st'.
Proof.
  induction tks as [|tk rest IH]; intros i st total st' total'; simpl.
  - intros [= <- <-]. apply marks_from_refl.
  - destruct (Monitor.fetch_news_for_ticker self w c i tk st) as [st1 out] eqn:Hfetch.
    destruct (Monitor.process_all w c i 0 out st1 total) as [st2 total2] eqn:Hall.
    apply fetch_news_marks in Hfetch. apply process_all_spec in Hall as (Hp & _).
    intros Hrest%IH. eapply marks_from_trans.
    + eapply marks_from_impl; [|exact Hfetch].
      intros u (r & Hr & Hurl & Hrel). exists 0, tk, r. by rewrite Nat.add_0_r.
    + intros u Hu. destruct (Hrest u Hu) as [Hu2|(j & tk' & r & Hj & Hr & Hrest')].
      * left. by rewrite <- Hp.
      * right. exists (S j), tk', r. split; [done|].
        by replace (i + S j) with (S i + j) by lia.
Qed.

Lemma check_news_marks (w : world) (c : nat) (st : Monitor.state) :
  marks_from (origin self w c 0 (Monitor.tickers self)) st
    (Monitor.check_news self w c st).
Proof.
  unfold Monitor.check_news.
  destruct (Monitor.check_tickers _ _ _ _ _ _ _) as [st1 total] eqn:Hloop.
  apply check_tickers_marks in Hloop. intros u Hu. apply (Hloop u).
  by destruct (decide (total = 0)).
Qed.

Lemma cycles_marks (w : world) (n : nat) :
  ∀ (c : nat) (st : Monitor.state),
    marks_from (fun u => ∃ c', c ≤ c' < c + n ∧
                               origin self w c' 0 (Monitor.tickers self) u)
      st (Monitor.cycles self w c n st).
Proof.
  induction n as [|n IH]; intros c st; simpl; [apply marks_from_refl|].
  eapply marks_from_trans.
  - eapply marks_from_impl; [|apply check_news_marks].
    intros u Hu. exists c. split; [lia | exact Hu].
  - eapply marks_from_impl; [|apply IH].
    intros u (c' & Hc' & Hu). exists c'. split; [lia | done].
Qed.

Lemma start_monitoring_marks (w : world) (scheduled : nat) (st : Monitor.state) :
  marks_from (fun u => ∃ c, c ≤ scheduled ∧
                            origin self w c 0 (Monitor.tickers self) u)
    st (Monitor.start_monitoring self w scheduled st).
Proof.
  unfold Monitor.start_monitoring.
  match goal with
  | |- context [Monitor.check_news self w 0 ?s] =>
      pose proof (cycles_marks w (S scheduled) 0 s) as Hm
  end.
  intros u Hu. destruct (Hm u Hu) as [Hold|(c & Hc & Horigin)]; [by left|].
  right. exists c. split; [lia | done].
Qed.

(** X10. The seen set only grows, over a fetch, a cycle and any number
    of cycles; and in a run that starts with an empty seen set every
    seen URL belongs to an article that the API handed over in one of the
    cycles, for one of the tickers, with a configured keyword in its
    text: a URL is never marked for an article without a keyword. *)
Theorem seen_set_grows_by_matches (w : world) (scheduled : nat) :
  (∀ c i tk st,
     Monitor.processed_articles st ⊆
     Monitor.processed_articles (Monitor.fetch_news_for_ticker self w c i tk st).1)
  ∧ (∀ c n st,
       Monitor.processed_articles st ⊆
       Monitor.processed_articles (Monitor.cycles self w c n st))
  ∧ (∀ u,
       u ∈ Monitor.processed_articles
             (Monitor.start_monitoring self w scheduled (Monitor.mkState ∅ [])) →
       ∃ c i tk r, c ≤ scheduled ∧ Monitor.tickers self !! i = Some tk ∧
                   delivered self w c i tk r ∧ raw_url r = Some u ∧ relevant self r).
Proof.
  split; [|split].
  - intros c i tk st.
    destruct (Monitor.fetch_news_for_ticker self w c i tk st) as [st' out] eqn:Hfetch.
    by apply fetch_news_spec in Hfetch as (Hsub & _).
  - intros c n st. apply (cycles_extends self w n c st).
  - intros u Hu.
    destruct (start_monitoring_marks w scheduled _ u Hu)
      as [Hold|(c & Hc & j & tk & r & Hj & Hr & Hurl & Hrel)].
    + by apply not_elem_of_empty in Hold.
    + by exists c, j, tk, r.
Qed.

(** X11. With an empty keyword list a run of [stock_news_monitor.py]
    writes no article block and marks no URL, whatever the API answers. *)
Theorem no_keywords_no_alerts (w : world) (scheduled : nat) :
  Monitor.keywords self = [] →
  let st := Monitor.start_monitoring self w scheduled (Monitor.mkState ∅ []) in
  alerts (Monitor.log st) = [] ∧ Monitor.processed_articles st = ∅.
Proof.
  intros Hnone st.
  assert (∀ r, ¬ relevant self r) as Hno.
  { intros r (k & Hk & _). rewrite Hnone in Hk. by apply elem_of_nil in Hk. }
  split.
  - destruct (start_monitoring_extends self w scheduled (Monitor.mkState ∅ []))
      as (_ & new & Hal & _ & Hnew).
    subst st. rewrite Hal. simpl.
    destruct new as [|u new]; [done|].
    destruct (Hnew u) as (_ & _ & c & _ & j & tk & r & _ & _ & _ & Hrel); [left|].
    by apply Hno in Hrel.
  - apply set_eq. intros u. split; [|intros Hu; by apply not_elem_of_empty in Hu].
    intros Hu.
    destruct (start_monitoring_marks w scheduled _ u Hu)
      as [Hold|(c & _ & j & tk & r & _ & _ & _ & Hrel)]; [done|].
    by apply Hno in Hrel.
Qed.

(** X12. A keyword that is the empty string occurs in every text: with it
    in the list, every article with an unseen URL is returned and marked,
    with the empty string among its matched keywords. *)
Theorem empty_keyword_matches_all (tk : string) (r : raw_article) (u : string)
    (st : Monitor.state) :
  lower "" = "" →
  "" ∈ Monitor.keywords self →
  raw_url r = Some u →
  u ∉ Monitor.processed_articles st →
  ∃ st1,
    Monitor.fetch_loop self tk [r] st [] = (st1, inr [article_of self tk u r]) ∧
    u ∈ Monitor.processed_articles st1 ∧
    "" ∈ Monitor.matched_keywords (article_of self tk u r).
Proof.
  intros Hlow Hin Hurl Hfresh.
  assert ("" ∈ Shared._extract_matched_keywords (Monitor.keywords self)
                 (Monitor.article_text r)) as Hmatch.
  { rewrite extract_filter, list_elem_of_In, filter_In.
    split; [by apply list_elem_of_In|]. apply str_in_true_iff.
    exists "", (lower (Monitor.article_text r)). by rewrite Hlow. }
  simpl. rewrite Hurl. rewrite bool_decide_eq_false_2 by done.
  unfold article_of in *.
  destruct (Shared._extract_matched_keywords _ _) as [|k ks] eqn:Hm;
    [by apply elem_of_nil in Hmatch|].
  eexists. split; [reflexivity|]. simpl.
  split; [|done]. apply elem_of_union_l. by apply elem_of_singleton.
Qed.

End SeenSet.

(** ** More on the keyword matcher *)

Section MatcherAlgebra.
Context `{Builtins}.

Lemma bool_filter_idempotent {A} (f : A → bool) (l : list A) :
  List.filter f (List.filter f l) = List.filter f l.
Proof.
  induction l as [|x l IH]; [done|]. simpl.
  destruct (f x) eqn:Hx; simpl; [|done]. by rewrite Hx, IH.
Qed.

(** X13. The matcher distributes over the concatenation of keyword
    lists, gives the same result when it is run again on its own result,
    and sees the text only through its lower-cased form: two texts that
    differ in case alone have the same matches. *)
Theorem extract_algebra (k1 k2 kws : list string) (t1 t2 : string) :
  Shared._extract_matched_keywords (k1 ++ k2) t1 =
  Shared._extract_matched_keywords k1 t1 ++ Shared._extract_matched_keywords k2 t1
  ∧ Shared._extract_matched_keywords (Shared._extract_matched_keywords kws t1) t1 =
    Shared._extract_matched_keywords kws t1
  ∧ (lower t1 = lower t2 →
     Shared._extract_matched_keywords kws t1 = Shared._extract_matched_keywords kws t2).
Proof.
  rewrite !extract_filter. split; [apply List.filter_app|].
  split; [apply bool_filter_idempotent|].
  intros Hlow. by rewrite Hlow.
Qed.

(** X14. The default keyword list of [backtest.py] holds the words
    commodities, clima, oferta and Guerra only glued to the heading that
    precedes them in the source, so the matcher of a run started by
    [main] never reports one of these four words, whatever the text;
    the list of [stock_news_monitor.py] holds all four. *)
Theorem glued_keywords_never_reported (a : Backtest.args) (text k : string) :
  k ∈ glued_words →
  (k ∉ Shared._extract_matched_keywords
         (Backtest.price_moving_keywords (Backtest.main_config a)) text)
  ∧ k ∈ Monitor.default_keywords
  ∧ Forall (fun g => g ∈ Backtest.default_keywords)
      [ "coringascommodities"; "fatores naturaisclima";
        "fatores de estrito mercadooferta";
        "fatores geopol" +:+ chr 237 +:+ "ticosGuerra" ].
Proof.
  intros Hk. split; [|split].
  - rewrite extract_filter, list_elem_of_In, filter_In, <- list_elem_of_In.
    intros [Hin _]. simpl in Hin.
    unfold glued_words in Hk.
    repeat (apply elem_of_cons in Hk as [->|Hk]);
      try (by apply elem_of_nil in Hk);
      revert Hin; apply (bool_decide_eq_false_1 _); vm_compute; reflexivity.
  - unfold glued_words in Hk.
    repeat (apply elem_of_cons in Hk as [->|Hk]);
      try (by apply elem_of_nil in Hk);
      apply (bool_decide_eq_true_1 _); vm_compute; reflexivity.
  - repeat constructor; apply (bool_decide_eq_true_1 _); vm_compute; reflexivity.
Qed.

End MatcherAlgebra.

(** ** What a fetch leaves in the log *)

Section FetchTrace.
Context `{Builtins}.
Variable self : Monitor.NewsMonitor.

Lemma fetch_loop_unmatched (tk : string) (seen : gset string) (arts : list raw_article) :
  Forall (fun r => ∃ u, raw_url r = Some u ∧ (u ∉ seen) ∧ ¬ relevant self r) arts →
  ∀ (st : Monitor.state) (acc : list Monitor.NewsArticle),
    Monitor.processed_articles st = seen →
    ∃ st', Monitor.fetch_loop self tk arts st acc = (st', inr acc) ∧
           Monitor.processed_articles st' = seen ∧
           length (Monitor.log st') = length (Monitor.log st) + 2 * length arts.
Proof.
  induction 1 as [|r rest (u & Hurl & Hfresh & Hno) _ IH]; intros st acc Hseen; simpl.
  - exists st. split; [done|]. split; [done|]. lia.
  - rewrite Hurl, bool_decide_eq_false_2 by by rewrite Hseen.
    apply (not_iff_compat (relevant_iff self r)) in Hno.
    destruct (Shared._extract_matched_keywords _ _) as [|k ks] eqn:Hm;
      [|exfalso; apply Hno; by intros [=]].
    match goal with
    | |- context [Monitor.fetch_loop self tk rest ?s acc] =>
        destruct (IH s acc) as (st' & Hloop & Hp & Hlen); [done|]
    end.
    exists st'. split; [done|]. split; [done|].
    rewrite Hlen. simpl. rewrite !emit_info, !length_app. simpl. lia.
Qed.

Lemma fetch_loop_all_seen (tk : string) (arts : list raw_article)
    (st : Monitor.state) (acc : list Monitor.NewsArticle) :
  Forall (fun r => ∃ u, raw_url r = Some u ∧ u ∈ Monitor.processed_articles st) arts →
  Monitor.fetch_loop self tk arts st acc = (st, inr acc).
Proof.
  induction 1 as [|r rest (u & Hurl & Hseen) _ IH]; simpl; [done|].
  by rewrite Hurl, bool_decide_eq_true_2.
Qed.

(** X17. An article whose URL is seen passes the loop without a trace:
    the state, log included, is unchanged.  An article with an unseen URL
    and no keyword is not marked, so every fetch that receives it logs it
    again, two records each time, and returns nothing for it. *)
Theorem unmatched_logged_again (tk : string) (arts : list raw_article)
    (st : Monitor.state) (acc : list Monitor.NewsArticle) :
  (Forall (fun r => ∃ u, raw_url r = Some u ∧ u ∈ Monitor.processed_articles st) arts →
   Monitor.fetch_loop self tk arts st acc = (st, inr acc))
  ∧ (Forall (fun r => ∃ u, raw_url r = Some u ∧
                           (u ∉ Monitor.processed_articles st) ∧ ¬ relevant self r) arts →
     ∃ st',
       Monitor.fetch_loop self tk arts st acc = (st', inr acc) ∧
       Monitor.processed_articles st' = Monitor.processed_articles st ∧
       length (Monitor.log st') = length (Monitor.log st) + 2 * length arts ∧
       ∃ st'',
         Monitor.fetch_loop self tk arts st' acc = (st'', inr acc) ∧
         length (Monitor.log st'') = length (Monitor.log st) + 4 * length arts).
Proof.
  split; [apply fetch_loop_all_seen|].
  intros Hall.
  destruct (fetch_loop_unmatched tk _ arts Hall st acc eq_refl) as (st' & Hloop & Hp & Hlen).
  exists st'. split; [done|]. split; [done|]. split; [done|].
  destruct (fetch_loop_unmatched tk _ arts Hall st' acc Hp) as (st'' & Hloop2 & _ & Hlen2).
  exists st''. split; [done|]. lia.
Qed.

End FetchTrace.

(** ** The further properties, run on ASCII text *)

Section FurtherScenarios.
Import AsciiText.

Lemma ticker_mapping_lookup_witness :
  "ADM" ∈ Backtest.tickers (Backtest.config adm_monitor)
  ∧ dict_get (Backtest._build_ticker_mapping (Backtest.config adm_monitor)) "ADM" =
    Some "Archer Daniels Midland".
Proof.
  split; [left|].
  apply (proj1 (ticker_mapping_lookup (Backtest.config adm_monitor) "ADM")). left.
Defined.

Lemma mixed_case_keys_change : Forall (fun k => upper k ≠ k) mixed_case_keys.
Proof. repeat constructor; intros Heq; vm_compute in Heq; discriminate. Qed.

Lemma mixed_case_aliases_unreachable_witness :
  "ADM" ∈ Backtest.tickers (Backtest.main_config adm_args)
  ∧ ("ADM" ∉ mixed_case_keys)
  ∧ (get (Backtest.ticker_to_company adm_monitor) "ADM" "ADM" = "ADM" ∨
     ("ADM", get (Backtest.ticker_to_company adm_monitor) "ADM" "ADM")
     ∈ upper_case_entries).
Proof.
  split; [left|].
  apply (mixed_case_aliases_unreachable adm_args "ADM" ascii_upper_idempotent
           mixed_case_keys_change).
  left.
Defined.

Lemma backtest_block_breaks_at_source_witness :
  ∃ o tk title,
    Backtest.NewsArticle required_only = inr o ∧
    Backtest.process_article "2025-01-01 00:00:00" o adm_fresh =
    (Backtest.mkState ∅ []
       (backtest_partial_block "2025-01-01 00:00:00" tk title),
     inl (AttributeError "NewsArticle" "source")).
Proof.
  destruct (backtest_block_breaks_at_source "2025-01-01 00:00:00" required_only
              [ ("title", Backtest.AText "Safra recorde de soja");
                ("url", Backtest.AText "https://example.org/safra");
                ("published_at", Backtest.AText "2025-01-01T00:00:00Z");
                ("matched_keywords", Backtest.AList []);
                ("ticker", Backtest.AValue None_) ]
              adm_fresh eq_refl) as (tk & title & _ & _ & Hraise).
  eexists _, tk, title. split; [reflexivity | exact Hraise].
Defined.

Lemma banner_negative_count_witness :
  length (Monitor.keywords two_keywords) < 5
  ∧ (INFO, "Keywords: clima, safra... (+-3 more)" +:+ newline)
    ∈ Monitor.log (Monitor.start_monitoring two_keywords network_down 0 fresh).
Proof.
  split; [simpl; lia|].
  apply (proj1 banner_negative_count two_keywords network_down 0 fresh).
  simpl. lia.
Defined.

Lemma alerts_follow_answer_order_witness :
  sublist
    (map Monitor.url
       (Monitor.fetch_news_for_ticker soy same_article_twice 0 0 "Brasil" fresh).2)
    (omap raw_url [harvest]).
Proof.
  apply (alerts_follow_answer_order soy same_article_twice 0 0 "Brasil" fresh
           (Monitor.fetch_news_for_ticker soy same_article_twice 0 0 "Brasil" fresh).1
           (Monitor.process_all same_article_twice 0 0 0
              (Monitor.fetch_news_for_ticker soy same_article_twice 0 0 "Brasil" fresh).2
              (Monitor.fetch_news_for_ticker soy same_article_twice 0 0 "Brasil" fresh).1
              0).1
           (Monitor.fetch_news_for_ticker soy same_article_twice 0 0 "Brasil" fresh).2
           0
           (Monitor.process_all same_article_twice 0 0 0
              (Monitor.fetch_news_for_ticker soy same_article_twice 0 0 "Brasil" fresh).2
              (Monitor.fetch_news_for_ticker soy same_article_twice 0 0 "Brasil" fresh).1
              0).2
           (Response (Some [harvest]))).
  - reflexivity.
  - apply surjective_pairing.
  - apply surjective_pairing.
Defined.

Lemma repeated_answer_returns_nothing_witness :
  (Monitor.fetch_news_for_ticker soy same_article_twice 0 0 "Brasil" fresh).2 ≠ []
  ∧ (Monitor.fetch_news_for_ticker soy same_article_twice 1 0 "Brasil"
       (Monitor.fetch_news_for_ticker soy same_article_twice 0 0 "Brasil" fresh).1).2 = [].
Proof.
  split; [vm_compute; discriminate|].
  apply (repeated_answer_returns_nothing soy same_article_twice 0 0 1 0 "Brasil" fresh
           (Monitor.fetch_news_for_ticker soy same_article_twice 0 0 "Brasil" fresh).1
           (Monitor.fetch_news_for_ticker soy same_article_twice 0 0 "Brasil" fresh).1
           (Monitor.fetch_news_for_ticker soy same_article_twice 0 0 "Brasil" fresh).2).
  - apply surjective_pairing.
  - done.
  - reflexivity.
Defined.

Lemma no_keywords_no_alerts_witness :
  Monitor.keywords no_keywords = []
  ∧ alerts (Monitor.log (Monitor.start_monitoring no_keywords same_article_twice 1 fresh))
    = [].
Proof.
  split; [reflexivity|].
  apply (no_keywords_no_alerts no_keywords same_article_twice 1). reflexivity.
Defined.

Lemma empty_keyword_matches_all_witness :
  ¬ relevant soy football
  ∧ ∃ st1,
      Monitor.fetch_loop catch_all "Brasil" [football] fresh [] =
      (st1, inr [article_of catch_all "Brasil" "https://example.org/jogo" football]) ∧
      "https://example.org/jogo" ∈ Monitor.processed_articles st1.
Proof.
  split; [exact football_irrelevant|].
  destruct (empty_keyword_matches_all catch_all "Brasil" football
              "https://example.org/jogo" fresh) as (st1 & Hloop & Hseen & _).
  - reflexivity.
  - left.
  - reflexivity.
  - apply not_elem_of_empty.
  - by exists st1.
Defined.

Lemma extract_algebra_witness :
  lower "SAFRA recorde" = lower "safra RECORDE"
  ∧ Shared._extract_matched_keywords ["clima"; "safra"] "SAFRA recorde" =
    Shared._extract_matched_keywords ["clima"; "safra"] "safra RECORDE".
Proof.
  split; [reflexivity|].
  apply (extract_algebra [] [] ["clima"; "safra"] "SAFRA recorde" "safra RECORDE").
  reflexivity.
Defined.

Lemma glued_keywords_never_reported_witness :
  "clima" ∈ glued_words
  ∧ ("clima" ∉ Shared._extract_matched_keywords
                 (Backtest.price_moving_keywords (Backtest.main_config adm_args))
                 "Clima seco ameaca a safra")
  ∧ "clima" ∈ Shared._extract_matched_keywords Monitor.default_keywords
                "Clima seco ameaca a safra".
Proof.
  assert ("clima" ∈ glued_words) as Hin by (right; left).
  split; [exact Hin|]. split.
  - apply (glued_keywords_never_reported adm_args "Clima seco ameaca a safra" "clima" Hin).
  - apply (bool_decide_eq_true_1 _). vm_compute. reflexivity.
Defined.

Lemma same_article_twice_well_formed : well_formed soy same_article_twice.
Proof.
  intros c i tk r (resp & Hresp & Hr). injection Hresp as <-. simpl in Hr.
  apply list_elem_of_singleton in Hr as ->. by eexists.
Qed.

Lemma well_formed_alerted_once_witness :
  "https://example.org/safra"
  ∈ alerts (Monitor.log (Monitor.start_monitoring soy same_article_twice 1 fresh))
  ∧ NoDup (alerts (Monitor.log (Monitor.start_monitoring soy same_article_twice 1 fresh))).
Proof.
  apply (well_formed_alerted_once soy same_article_twice same_article_twice_well_formed
           1 0 0 "Brasil" harvest "https://example.org/safra").
  - lia.
  - reflexivity.
  - exists (Response (Some [harvest])). split; [reflexivity | left].
  - reflexivity.
  - exact harvest_relevant.
Defined.

Lemma unmatched_logged_again_witness :
  ∃ st',
    Monitor.fetch_loop soy "Brasil" [football] fresh [] = (st', inr []) ∧
    Monitor.processed_articles st' = ∅ ∧
    length (Monitor.log st') = 2.
Proof.
  destruct (proj2 (unmatched_logged_again soy "Brasil" [football] fresh []))
    as (st' & Hloop & Hp & Hlen & _).
  - constructor; [|constructor].
    exists "https://example.org/jogo". split; [reflexivity|].
    split; [apply not_elem_of_empty | exact football_irrelevant].
  - exists st'. split; [exact Hloop|]. split; [exact Hp | exact Hlen].
Defined.

End FurtherScenarios.
